(** * The streaming deduplicating reader of the openship Next.js route

    A shallow embedding of [readJsonFileLineByLine]
    (src/server/nextjs/src/route.ts) and the properties its specification
    states about it.

    ECMAScript strings are sequences of 16-bit code units; they are modelled
    as lists of [N].  The parts of the host platform the function calls
    ([JSON.parse], the conversion of a Number to a String, the file stream)
    are parameters of the development; the language-level operations the
    function itself performs (property reads, the [+] operator, [trim],
    truthiness, the [Set], the array, the [try]/[catch]) are defined here. *)

From Stdlib Require Import NArith ZArith List Ascii String DecimalString.
From stdpp Require Import base decidable option list sorting countable gmap.

Local Open Scope N_scope.
Local Open Scope list_scope.

(** ** Strings *)

Abbreviation jsstring := (list N).

(** An ASCII literal as a sequence of code units. *)
Definition js (s : string) : jsstring :=
  List.map N_of_ascii (list_ascii_of_string s).

(** The code unit of the double quote, which a literal cannot hold. *)
Definition DQUOTE : N := 34.
Definition LF : N := 10.
Definition CR : N := 13.
Definition LS : N := 8232.
Definition PS : N := 8233.

(** ECMAScript WhiteSpace: TAB, VT, FF, ZWNBSP and the Space_Separator
    category. *)
Definition is_WhiteSpace (c : N) : bool :=
  (c =? 9) || (c =? 11) || (c =? 12) || (c =? 32) || (c =? 160)
  || (c =? 5760) || ((8192 <=? c) && (c <=? 8202))
  || (c =? 8239) || (c =? 8287) || (c =? 12288) || (c =? 65279).

(** ECMAScript LineTerminator: LF, CR, LS, PS. *)
Definition is_LineTerminator (c : N) : bool :=
  (c =? LF) || (c =? CR) || (c =? LS) || (c =? PS).

(** What [String.prototype.trim] strips. *)
Definition is_trimmed (c : N) : bool := is_WhiteSpace c || is_LineTerminator c.

Fixpoint trimStart (s : jsstring) : jsstring :=
  match s with
  | [] => []
  | c :: s' => if is_trimmed c then trimStart s' else s
  end.

Definition trimEnd (s : jsstring) : jsstring := rev (trimStart (rev s)).

(** [line.trim()] *)
Definition trim (s : jsstring) : jsstring := trimEnd (trimStart s).

(** ToBoolean of a string: only the empty string is falsy. *)
Definition truthy (s : jsstring) : bool :=
  match s with [] => false | _ :: _ => true end.

(** ** Values, errors and completions *)

#[local] Set Warnings "-register-all".

(** What [JSON.parse] can return.  A property table lists the own properties
    of the object, each name once, as [JSON.parse] builds it; a read takes
    the first binding of the name. *)
Inductive JSON (number : Type) : Type :=
| JNull
| JBool (b : bool)
| JNumber (n : number)
| JString (s : jsstring)
| JArray (elements : list (JSON number))
| JObject (properties : list (jsstring * JSON number)).

Arguments JNull {number}.
Arguments JBool {number} b.
Arguments JNumber {number} n.
Arguments JString {number} s.
Arguments JArray {number} elements.
Arguments JObject {number} properties.

(** The exceptions that can reach the handler or the caller. *)
Inductive Error : Type :=
| SyntaxError
| TypeError
| SystemError (code : jsstring).

Inductive Completion (A : Type) : Type :=
| Normal (a : A)
| Throw (e : Error).

Arguments Normal {A} a.
Arguments Throw {A} e.

#[global] Instance Completion_bind : MBind Completion :=
  λ A B k c,
    match c with
    | Normal a => k a
    | Throw e => Throw e
    end.

(** What [createReadStream(filePath)] turns out to be: a stream that delivers
    the whole text and ends, or one that emits an error after delivering a
    part of it (none at all when the file cannot be opened). *)
Inductive ReadStream : Type :=
| Readable (text : jsstring)
| Errored (delivered : jsstring) (e : Error).

(** The host platform. *)
Class Runtime : Type := {
  number : Type;
  (** Number::toString, radix 10 *)
  Number_toString : number → jsstring;
  (** [JSON.parse(text)]; [None] when it throws its SyntaxError *)
  JSON_parse : jsstring → option (JSON number);
  (** the code units that end a line for readline besides CR and LF: LS and
      PS on the current platform, none on older versions *)
  line_separator : N → bool;
}.

(** The two properties the source reads. *)
Inductive Field : Type := field_s | field_o.

Definition field_name (f : Field) : jsstring :=
  match f with
  | field_s => js "s"
  | field_o => js "o"
  end.

Fixpoint lookup_property {number} (P : jsstring)
    (properties : list (jsstring * JSON number)) : option (JSON number) :=
  match properties with
  | [] => None
  | (name, v) :: rest =>
      if decide (name = P) then Some v else lookup_property P rest
  end.

(** One call of [console.error]: the message and the error object. *)
Record Diagnostic : Type := {
  message : jsstring;
  error : Error;
}.

(** [console.error(`Error parsing line as JSON: ${line}`, error)] *)
Definition diagnostic (line : jsstring) (e : Error) : Diagnostic :=
  {| message := js "Error parsing line as JSON: " ++ line; error := e |}.

(** The accumulators of one call and what it has printed. *)
Record State (number : Type) : Type := {
  set : gset jsstring;
  jsonObjects : list (JSON number);
  console : list Diagnostic;
}.

Arguments set {number} _.
Arguments jsonObjects {number} _.
Arguments console {number} _.

(** How the promise settles, and what was printed meanwhile. *)
Record Outcome (number : Type) : Type := {
  printed : list Diagnostic;
  settled : Completion (list (JSON number));
}.

Arguments printed {number} _.
Arguments settled {number} _.

(** What the handler reads of [process]: [process.cwd()],
    [process.release.name] and [process.version]. *)
Record Process : Type := {
  cwd : jsstring;
  release_name : jsstring;
  version : jsstring;
}.

(** How the promise of [GET] settles, with the object handed to
    [Response.json], and what was printed meanwhile. *)
Record Answer (number : Type) : Type := {
  logged : list Diagnostic;
  returned : Completion (JSON number);
}.

Arguments logged {number} _.
Arguments returned {number} _.

Section Reader.
Context `{Runtime}.

Abbreviation Value := (JSON number).
Abbreviation State := (State number).
Abbreviation Outcome := (Outcome number).

(** [obj.s] and [obj.o].  Reading a property of [null] throws; a number, a
    boolean, a string or an array has no property of either name, nor has
    [Object.prototype], so the read gives [undefined] ([None]) unless the
    object has the property itself. *)
Definition Get (obj : Value) (f : Field) : Completion (option Value) :=
  match obj with
  | JNull => Throw TypeError
  | JObject properties => Normal (lookup_property (field_name f) properties)
  | _ => Normal None
  end.

(** ToString(ToPrimitive(v)) for a value built by [JSON.parse].  An array
    goes through [Array.prototype.join]; a plain object gives
    ["[object Object]"] unless it has a property [toString] of its own, which
    is never callable, so that no conversion is left and a TypeError is
    thrown. *)
Fixpoint ToString (v : Value) : Completion jsstring :=
  match v with
  | JNull => Normal (js "null")
  | JBool b => Normal (if b then js "true" else js "false")
  | JNumber n => Normal (Number_toString n)
  | JString s => Normal s
  | JArray elements =>
      (fix join (l : list Value) : Completion jsstring :=
         match l with
         | [] => Normal []
         | e :: l' =>
             next ← match e with
                    | JNull => Normal []
                    | _ => ToString e
                    end;
             match l' with
             | [] => Normal next
             | _ :: _ => R ← join l'; Normal (next ++ js "," ++ R)
             end
         end) elements
  | JObject properties =>
      match lookup_property (js "toString") properties with
      | Some _ => Throw TypeError
      | None => Normal (js "[object Object]")
      end
  end.

(** The operand of [+ "::"]: [undefined] prints as itself. *)
Definition ToString_operand (v : option Value) : Completion jsstring :=
  match v with
  | None => Normal (js "undefined")
  | Some j => ToString j
  end.

(** [obj.s + "::" + obj.o], left to right. *)
Definition mangled (obj : Value) : Completion jsstring :=
  s ← Get obj field_s;
  l ← ToString_operand s;
  o ← Get obj field_o;
  r ← ToString_operand o;
  Normal ((l ++ js "::") ++ r).

Definition initial : State :=
  {| set := ∅; jsonObjects := []; console := [] |}.

(** The [try] block up to the membership test. *)
Definition try_line (line : jsstring) : Completion (Value * jsstring) :=
  obj ← match JSON_parse line with
        | Some v => Normal v
        | None => Throw SyntaxError
        end;
  k ← mangled obj;
  Normal (obj, k).

(** The body of the [for await] loop. *)
Definition body (st : State) (line : jsstring) : State :=
  if truthy (trim line) then
    match try_line line with
    | Normal (obj, k) =>
        if decide (k ∈ set st) then st
        else {| set := {[k]} ∪ set st;
                jsonObjects := jsonObjects st ++ [obj];
                console := console st |}
    | Throw e =>
        {| set := set st;
           jsonObjects := jsonObjects st;
           console := console st ++ [diagnostic line e] |}
    end
  else st.

Definition for_await (lines : list jsstring) (st : State) : State :=
  fold_left body lines st.

(** What the readline interface yields for a text under
    [crlfDelay: Infinity]: a line ends at CR LF, at LF, at a CR that no LF
    follows, and at a separator of the platform; a CR and the LF after it
    count as one ending wherever the chunks of the stream are cut; what
    follows the last ending is a line when the stream ends and it is not
    empty. *)
Fixpoint lines_from (ended : bool) (buffer text : jsstring) : list jsstring :=
  match text with
  | [] => if ended && truthy buffer then [buffer] else []
  | c :: rest =>
      if c =? CR then
        match rest with
        | c' :: rest' =>
            if c' =? LF then buffer :: lines_from ended [] rest'
            else buffer :: lines_from ended [] rest
        | [] => buffer :: lines_from ended [] rest
        end
      else if (c =? LF) || line_separator c then
        buffer :: lines_from ended [] rest
      else lines_from ended (buffer ++ [c]) rest
  end.

(** The lines of a stream read to its end. *)
Definition createInterface (text : jsstring) : list jsstring :=
  lines_from true [] text.

(** The lines yielded before an error of the stream: those already ended;
    the unfinished one is never emitted. *)
Definition complete_lines (delivered : jsstring) : list jsstring :=
  lines_from false [] delivered.

(** [readJsonFileLineByLine(filePath)] on a file system that answers
    [createReadStream].  Nothing catches what the iteration throws, so an
    error of the stream rejects the promise. *)
Definition readJsonFileLineByLine
    (createReadStream : jsstring → ReadStream) (filePath : jsstring) : Outcome :=
  match createReadStream filePath with
  | Readable text =>
      let st := for_await (createInterface text) initial in
      {| printed := console st; settled := Normal (jsonObjects st) |}
  | Errored delivered e =>
      let st := for_await (complete_lines delivered) initial in
      {| printed := console st; settled := Throw e |}
  end.

(** The object [data] that [GET] builds around the graph. *)
Definition data (process : Process) (graph : list Value) : Value :=
  JObject
    [(js "runtime",
      JObject [(js "name", JString (release_name process));
               (js "version", JString (version process))]);
     (js "framework", JObject [(js "name", JString (js "nextjs"))]);
     (js "openship",
      JObject [(js "version", JString (js "beta"));
               (js "protocols", JArray [JString (js "osh1")])]);
     (js "application",
      JObject [(js "name", JString (js "{application}"));
               (js "version", JString (js "{version}"));
               (js "graph", JArray graph)])].

(** [GET()]: the graph is awaited first, so a rejected read rejects the
    handler before anything is built. *)
Definition GET (process : Process) (createReadStream : jsstring → ReadStream)
    : Answer number :=
  let currentDir := cwd process in
  let read :=
    readJsonFileLineByLine createReadStream
      (currentDir ++ js "/.next/openship/graph") in
  {| logged := printed read;
     returned := graph ← settled read; Normal (data process graph) |}.

End Reader.

(** ** A reference runtime

    An instance of the platform on which the reader runs: a parser for the
    JSON grammar (ECMA-404) and the printing of numbers of ECMAScript's
    Number::toString.  It keeps the exact decimal value of a numeral where the
    platform rounds it to binary64; the two print alike for numerals of at
    most 15 significant digits in the normal range. *)
Module Reference.

(** The value [mantissa * 10 ^ exponent]; the mantissa is not divisible by
    ten unless both are zero. *)
Record Decimal : Type := { mantissa : Z; exponent : Z }.

Fixpoint strip_zeros (fuel : nat) (m e : Z) : Decimal :=
  match fuel with
  | O => {| mantissa := m; exponent := e |}
  | S fuel =>
      if (m =? 0)%Z then {| mantissa := 0; exponent := 0 |}
      else if (m mod 10 =? 0)%Z then strip_zeros fuel (m / 10) (e + 1)
      else {| mantissa := m; exponent := e |}
  end.

Definition normalise (m e : Z) : Decimal :=
  strip_zeros (S (Z.to_nat (Z.log2 (Z.abs m)))) m e.

Definition digits_of (n : N) : jsstring :=
  js (NilEmpty.string_of_uint (N.to_uint n)).

(** Number::toString of ECMA-262, from the digits [s], their number [k] and
    the position [n] of the decimal point. *)
Definition toString (x : Decimal) : jsstring :=
  let m := mantissa x in
  if (m =? 0)%Z then js "0"
  else
    let sign := if (m <? 0)%Z then js "-" else [] in
    let s := digits_of (Z.to_N (Z.abs m)) in
    let k := Z.of_nat (length s) in
    let n := (k + exponent x)%Z in
    let e := (n - 1)%Z in
    let exp := js "e" ++ (if (e <? 0)%Z then js "-" else js "+")
               ++ digits_of (Z.to_N (Z.abs e)) in
    sign ++
    if ((k <=? n) && (n <=? 21))%Z then s ++ repeat 48 (Z.to_nat (n - k))
    else if ((0 <? n) && (n <=? 21))%Z then
      take (Z.to_nat n) s ++ js "." ++ drop (Z.to_nat n) s
    else if ((-6 <? n) && (n <=? 0))%Z then
      js "0." ++ repeat 48 (Z.to_nat (- n)) ++ s
    else if (k =? 1)%Z then s ++ exp
    else take 1 s ++ js "." ++ drop 1 s ++ exp.

Abbreviation Value := (JSON Decimal).

(** JSON white space: space, TAB, LF, CR. *)
Definition is_ws (c : N) : bool :=
  (c =? 32) || (c =? 9) || (c =? 10) || (c =? 13).

Fixpoint skip_ws (t : jsstring) : jsstring :=
  match t with
  | c :: rest => if is_ws c then skip_ws rest else t
  | [] => []
  end.

Definition is_digit (c : N) : bool := (48 <=? c) && (c <=? 57).

Definition hex_value (c : N) : option N :=
  if is_digit c then Some (c - 48)
  else if (97 <=? c) && (c <=? 102) then Some (c - 87)
  else if (65 <=? c) && (c <=? 70) then Some (c - 55)
  else None.

Definition unescape (c : N) : option N :=
  if c =? 34 then Some 34
  else if c =? 92 then Some 92
  else if c =? 47 then Some 47
  else if c =? 98 then Some 8
  else if c =? 102 then Some 12
  else if c =? 110 then Some 10
  else if c =? 114 then Some 13
  else if c =? 116 then Some 9
  else None.

(** The characters of a string after its opening quote. *)
Fixpoint parse_chars (acc t : jsstring) : option (jsstring * jsstring) :=
  match t with
  | [] => None
  | c :: rest =>
      if c =? 34 then Some (acc, rest)
      else if c =? 92 then
        match rest with
        | [] => None
        | e :: rest1 =>
            if e =? 117 then
              match rest1 with
              | h1 :: h2 :: h3 :: h4 :: rest2 =>
                  match hex_value h1, hex_value h2, hex_value h3, hex_value h4 with
                  | Some a, Some b, Some c', Some d =>
                      parse_chars (acc ++ [((a * 16 + b) * 16 + c') * 16 + d]) rest2
                  | _, _, _, _ => None
                  end
              | _ => None
              end
            else
              match unescape e with
              | Some u => parse_chars (acc ++ [u]) rest1
              | None => None
              end
        end
      else if c <? 32 then None
      else parse_chars (acc ++ [c]) rest
  end.

(** A run of digits: its value, its length and what follows. *)
Fixpoint parse_digits (value : Z) (count : Z) (t : jsstring) : Z * Z * jsstring :=
  match t with
  | c :: rest =>
      if is_digit c then
        parse_digits (value * 10 + Z.of_N (c - 48)) (count + 1) rest
      else (value, count, t)
  | [] => (value, count, [])
  end.

Definition parse_number (t : jsstring) : option (Decimal * jsstring) :=
  let '(negative, t) :=
    match t with
    | c :: rest => if c =? 45 then (true, rest) else (false, t)
    | [] => (false, t)
    end in
  '(int, t) ←
    match t with
    | c :: rest =>
        if c =? 48 then Some (0%Z, rest)
        else if is_digit c then
          let '(v, _, t') := parse_digits 0 0 t in Some (v, t')
        else None
    | [] => None
    end;
  '(m, scale, t) ←
    match t with
    | c :: rest =>
        if c =? 46 then
          let '(v, count, t') := parse_digits int 0 rest in
          if (count =? 0)%Z then None else Some (v, count, t')
        else Some (int, 0%Z, t)
    | [] => Some (int, 0%Z, t)
    end;
  '(e, t) ←
    match t with
    | c :: rest =>
        if (c =? 101) || (c =? 69) then
          let '(minus, rest) :=
            match rest with
            | c' :: rest' =>
                if c' =? 45 then (true, rest')
                else if c' =? 43 then (false, rest')
                else (false, rest)
            | [] => (false, rest)
            end in
          let '(v, count, t') := parse_digits 0 0 rest in
          if (count =? 0)%Z then None
          else Some (if minus then (- v)%Z else v, t')
        else Some (0%Z, t)
    | [] => Some (0%Z, t)
    end;
  Some (normalise (if negative then - m else m) (e - scale), t).

Fixpoint strip_prefix (p t : jsstring) : option jsstring :=
  match p, t with
  | [], _ => Some t
  | a :: p', b :: t' => if a =? b then strip_prefix p' t' else None
  | _ :: _, [] => None
  end.

(** CreateDataProperty on the object under construction: a repeated name
    keeps its place and takes the later value. *)
Fixpoint define (name : jsstring) (v : Value) (properties : list (jsstring * Value))
    : list (jsstring * Value) :=
  match properties with
  | [] => [(name, v)]
  | (name', v') :: rest =>
      if decide (name' = name) then (name', v) :: rest
      else (name', v') :: define name v rest
  end.

Fixpoint parse_value (fuel : nat) (t : jsstring) : option (Value * jsstring) :=
  match fuel with
  | O => None
  | S fuel =>
      match skip_ws t with
      | [] => None
      | c :: rest =>
          if c =? 123 then
            match skip_ws rest with
            | c' :: rest' =>
                if c' =? 125 then Some (JObject [], rest')
                else parse_members fuel [] (c' :: rest')
            | [] => None
            end
          else if c =? 91 then
            match skip_ws rest with
            | c' :: rest' =>
                if c' =? 93 then Some (JArray [], rest')
                else parse_elements fuel [] (c' :: rest')
            | [] => None
            end
          else if c =? 34 then
            '(s, t') ← parse_chars [] rest; Some (JString s, t')
          else if c =? 116 then
            t' ← strip_prefix (js "rue") rest; Some (JBool true, t')
          else if c =? 102 then
            t' ← strip_prefix (js "alse") rest; Some (JBool false, t')
          else if c =? 110 then
            t' ← strip_prefix (js "ull") rest; Some (JNull, t')
          else
            '(x, t') ← parse_number (c :: rest); Some (JNumber x, t')
      end
  end
with parse_members (fuel : nat) (acc : list (jsstring * Value)) (t : jsstring)
    : option (Value * jsstring) :=
  match fuel with
  | O => None
  | S fuel =>
      match t with
      | c :: rest =>
          if c =? 34 then
            '(name, t1) ← parse_chars [] rest;
            match skip_ws t1 with
            | c1 :: t2 =>
                if c1 =? 58 then
                  '(v, t3) ← parse_value fuel t2;
                  match skip_ws t3 with
                  | c3 :: t4 =>
                      if c3 =? 44 then
                        parse_members fuel (define name v acc) (skip_ws t4)
                      else if c3 =? 125 then
                        Some (JObject (define name v acc), t4)
                      else None
                  | [] => None
                  end
                else None
            | [] => None
            end
          else None
      | [] => None
      end
  end
with parse_elements (fuel : nat) (acc : list Value) (t : jsstring)
    : option (Value * jsstring) :=
  match fuel with
  | O => None
  | S fuel =>
      '(v, t1) ← parse_value fuel t;
      match skip_ws t1 with
      | c :: t2 =>
          if c =? 44 then parse_elements fuel (acc ++ [v]) t2
          else if c =? 93 then Some (JArray (acc ++ [v]), t2)
          else None
      | [] => None
      end
  end.

Definition parse (text : jsstring) : option Value :=
  '(v, rest) ← parse_value (S (length text)) text;
  match skip_ws rest with
  | [] => Some v
  | _ :: _ => None
  end.

#[export] Instance runtime : Runtime :=
  {| number := Decimal; Number_toString := toString; JSON_parse := parse;
     line_separator := λ c, (c =? LS) || (c =? PS) |}.

(** Source text with [`] standing for the double quote. *)
Definition src (s : string) : jsstring :=
  List.map (λ c, if c =? 96 then DQUOTE else c) (js s).

(** A file system that holds the one text under every path, and one that
    cannot open any. *)
Definition file (text : jsstring) : jsstring → ReadStream :=
  λ _, Readable text.

Definition no_file : jsstring → ReadStream :=
  λ _, Errored [] (SystemError (js "ENOENT")).

(** Lines, each ended by LF. *)
Definition unlines (lines : list jsstring) : jsstring :=
  concat ((λ line, line ++ [LF]) <$> lines).

Definition path : jsstring := js ".next/openship/graph".

Definition line_AB : jsstring := src "{`s`:`A`,`o`:`B`}".
Definition line_AC : jsstring := src "{`s`:`A`,`o`:`C`}".
Definition line_CD : jsstring := src "{`s`:`C`,`o`:`D`}".
Definition line_bad : jsstring := src "not json".
Definition line_null : jsstring := src "null".
Definition line_seven : jsstring := src "7".
Definition line_num : jsstring := src "{`s`:1,`o`:`x`}".
Definition line_str : jsstring := src "{`s`:`1`,`o`:`x`}".
Definition line_empty : jsstring := src "{}".
Definition line_other : jsstring := src "{`name`:`n`}".

Definition obj_AB : Value :=
  JObject [(js "s", JString (js "A")); (js "o", JString (js "B"))].
Definition obj_AC : Value :=
  JObject [(js "s", JString (js "A")); (js "o", JString (js "C"))].
Definition obj_CD : Value :=
  JObject [(js "s", JString (js "C")); (js "o", JString (js "D"))].

Definition line_xy_z : jsstring := src "{`s`:`x::y`,`o`:`z`}".
Definition line_x_yz : jsstring := src "{`s`:`x`,`o`:`y::z`}".
Definition line_true : jsstring := src "{`s`:true,`o`:`x`}".
Definition line_true_string : jsstring := src "{`s`:`true`,`o`:`x`}".

(** A process, and the file system that holds a text as its graph file and
    nothing else. *)
Definition node : Process :=
  {| cwd := js "/app"; release_name := js "node"; version := js "v20.11.0" |}.

Definition graph_file (text : jsstring) : jsstring → ReadStream :=
  λ p, if decide (p = js "/app/.next/openship/graph") then Readable text
       else Errored [] (SystemError (js "ENOENT")).

End Reference.

(** ** Notions of the specification *)

(** A blank line: empty, or white space only. *)
Definition blank (line : jsstring) : Prop :=
  Forall (λ c, is_trimmed c = true) line.

(** Every LF of a text replaced by CR LF. *)
Definition lf_to_crlf (text : jsstring) : jsstring :=
  flat_map (λ c, if c =? LF then [CR; LF] else [c]) text.

Section Notions.
Context `{Runtime}.

(** The line is not blank, decodes to [obj], and [obj] has the key [k]. *)
Definition yields (line k : jsstring) (obj : JSON number) : Prop :=
  truthy (trim line) = true ∧ try_line line = Normal (obj, k).

(** Line [i] yields [obj] under the key [k], and no line before it yields
    that key. *)
Definition first_for_key (lines : list jsstring) (i : nat)
    (k : jsstring) (obj : JSON number) : Prop :=
  ∃ line, lines !! i = Some line ∧ yields line k obj ∧
    ∀ j line' obj', (j < i)%nat → lines !! j = Some line' → ¬ yields line' k obj'.

(** [out] holds the records of the lines that are first for their key, in
    the order of those lines: [idxs] lists, in increasing order, exactly the
    positions of such lines, and [out] is their records one by one. *)
Definition first_occurrences (lines : list jsstring) (out : list (JSON number))
    : Prop :=
  ∃ idxs : list nat,
    StronglySorted lt idxs
    ∧ (∀ i, i ∈ idxs ↔ ∃ k obj, first_for_key lines i k obj)
    ∧ Forall2 (λ obj i, ∃ k, first_for_key lines i k obj) out idxs.

(** A value that is not [null] and not an object: a number, a string, a
    boolean or an array. *)
Definition primitive_or_array (v : JSON number) : Prop :=
  match v with
  | JNumber _ | JString _ | JBool _ | JArray _ => True
  | JNull | JObject _ => False
  end.

(** An object that has neither of the two properties. *)
Definition lacks_both (v : JSON number) : Prop :=
  ∃ properties, v = JObject properties
    ∧ lookup_property (js "s") properties = None
    ∧ lookup_property (js "o") properties = None.

(** What the loop prints for a line, whatever the lines before it. *)
Definition report (line : jsstring) : list Diagnostic :=
  if truthy (trim line) then
    match try_line line with
    | Normal _ => []
    | Throw e => [diagnostic line e]
    end
  else [].

(** The line is not blank and has a record and a key. *)
Definition keyed (line : jsstring) : bool :=
  truthy (trim line)
  && match try_line line with Normal _ => true | Throw _ => false end.


(** A line as the splitter yields it: no code unit of it ends a line. *)
Definition plain (line : jsstring) : Prop :=
  Forall (λ c, (c =? CR) = false ∧ (c =? LF) || line_separator c = false) line.

End Notions.

(** A text that stops where a line does: empty, or ended by LF. *)
Definition ends_line (text : jsstring) : Prop :=
  text = [] ∨ ∃ t, text = t ++ [LF].

(** ** Properties *)

Section Properties.
Context `{Runtime}.

Implicit Types (line k : jsstring) (lines : list jsstring) (st : State number).

(** *** Trimming *)

Lemma trimStart_nil s : trimStart s = [] ↔ blank s.
Proof.
  unfold blank. induction s as [|c s IH]; simpl.
  - split; [constructor | done].
  - destruct (is_trimmed c) eqn:E.
    + rewrite IH. split; [by constructor | by inversion 1].
    + split; [done | inversion 1; congruence].
Qed.

Lemma blank_nil : blank [].
Proof. constructor. Qed.

Lemma truthy_trim_false line : truthy (trim line) = false ↔ blank line.
Proof.
  unfold trim, trimEnd. split.
  - intros Hf.
    destruct (rev (trimStart (rev (trimStart line)))) as [|] eqn:E; [|done].
    apply (f_equal (@rev N)) in E. rewrite rev_involutive in E. simpl in E.
    apply trimStart_nil in E.
    destruct (trimStart line) as [|c r] eqn:E'; [by apply trimStart_nil|].
    assert (is_trimmed c = false) as Hc.
    { clear -E'. induction line as [|a l IH]; simpl in E'; [done|].
      destruct (is_trimmed a) eqn:?; [auto | congruence]. }
    unfold blank in E. rewrite Forall_forall in E.
    specialize (E c). rewrite E in Hc; [done|].
    apply list_elem_of_In, in_rev. rewrite rev_involutive. by left.
  - intros Hb. apply trimStart_nil in Hb. by rewrite Hb.
Qed.

Lemma truthy_trim_true line : truthy (trim line) = true ↔ ¬ blank line.
Proof.
  rewrite <- truthy_trim_false. by destruct (truthy (trim line)).
Qed.

(** *** The loop body, case by case *)

Lemma body_blank st line : blank line → body st line = st.
Proof. intros Hb. unfold body. by apply truthy_trim_false in Hb as ->. Qed.

Lemma body_throw st line e :
  truthy (trim line) = true → try_line line = Throw e →
  body st line = {| set := set st; jsonObjects := jsonObjects st;
                    console := console st ++ [diagnostic line e] |}.
Proof. intros Ht He. unfold body. by rewrite Ht, He. Qed.

Lemma body_seen st line k obj :
  yields line k obj → k ∈ set st → body st line = st.
Proof.
  intros [Ht Hy] Hin. unfold body. rewrite Ht, Hy. by rewrite decide_True.
Qed.

Lemma body_fresh st line k obj :
  yields line k obj → k ∉ set st →
  body st line = {| set := {[k]} ∪ set st;
                    jsonObjects := jsonObjects st ++ [obj];
                    console := console st |}.
Proof.
  intros [Ht Hy] Hin. unfold body. rewrite Ht, Hy. by rewrite decide_False.
Qed.

(** A line either yields a record and its key, or leaves the accumulators
    alone. *)
Lemma body_cases st line :
  (∃ k obj, yields line k obj)
  ∨ ((∀ k obj, ¬ yields line k obj)
     ∧ set (body st line) = set st
     ∧ jsonObjects (body st line) = jsonObjects st).
Proof.
  destruct (truthy (trim line)) eqn:Ht.
  - destruct (try_line line) as [[obj k]|e] eqn:Hy.
    + left. by exists k, obj.
    + right. rewrite (body_throw _ _ e) by done. simpl.
      split; [|done]. intros k obj [_ Hy']. congruence.
  - right. rewrite body_blank by by apply truthy_trim_false.
    split; [|done]. intros k obj [Ht' _]. congruence.
Qed.

Lemma yields_mangled line k obj : yields line k obj → mangled obj = Normal k.
Proof.
  intros [_ Hy]. unfold try_line in Hy.
  destruct (JSON_parse line) as [v|]; simpl in Hy; [|done].
  destruct (mangled v) as [k'|] eqn:E; simpl in Hy; [|done].
  by simplify_eq.
Qed.

Lemma yields_parse line k obj : yields line k obj → JSON_parse line = Some obj.
Proof.
  intros [_ Hy]. unfold try_line in Hy.
  destruct (JSON_parse line) as [v|]; simpl in Hy; [|done].
  destruct (mangled v) as [k'|] eqn:E; simpl in Hy; [|done].
  by simplify_eq.
Qed.

Lemma yields_fun line k k' obj obj' :
  yields line k obj → yields line k' obj' → k = k' ∧ obj = obj'.
Proof. intros [_ H1] [_ H2]. rewrite H1 in H2. by simplify_eq. Qed.

Lemma for_await_snoc lines line st :
  for_await (lines ++ [line]) st = body (for_await lines st) line.
Proof. unfold for_await. by rewrite fold_left_app. Qed.

Lemma for_await_app lines lines' st :
  for_await (lines ++ lines') st = for_await lines' (for_await lines st).
Proof. unfold for_await. by rewrite fold_left_app. Qed.

(** *** First occurrences *)

Lemma first_for_key_snoc lines line i k obj :
  first_for_key (lines ++ [line]) i k obj ↔
  first_for_key lines i k obj
  ∨ (i = length lines ∧ yields line k obj
     ∧ ∀ j line' obj', lines !! j = Some line' → ¬ yields line' k obj').
Proof.
  unfold first_for_key. split.
  - intros (l & Hl & Hy & Hfirst).
    destruct (decide (i < length lines)%nat) as [Hlt|Hge].
    + left. exists l. rewrite lookup_app_l in Hl by done.
      split_and!; [done..|].
      intros j l' obj' Hj Hl'. apply (Hfirst j); [done|].
      rewrite lookup_app_l; [done | lia].
    + right.
      assert (i = length lines) as ->.
      { apply lookup_lt_Some in Hl. rewrite length_app in Hl. simpl in Hl. lia. }
      rewrite lookup_app_r, Nat.sub_diag in Hl by done. simpl in Hl.
      simplify_eq. split_and!; [done..|].
      intros j l' obj' Hl'. apply (Hfirst j).
      * by apply lookup_lt_Some in Hl'.
      * apply lookup_lt_Some in Hl' as Hlt. by rewrite lookup_app_l.
  - intros [(l & Hl & Hy & Hfirst)|(-> & Hy & Hfirst)].
    + exists l. apply lookup_lt_Some in Hl as Hlt.
      rewrite lookup_app_l by done. split_and!; [done..|].
      intros j l' obj' Hj Hl'. apply (Hfirst j); [done|].
      rewrite lookup_app_l in Hl'; [done | lia].
    + exists line. rewrite lookup_app_r, Nat.sub_diag by done.
      split_and!; [done..|].
      intros j l' obj' Hj Hl'. apply (Hfirst j).
      by rewrite lookup_app_l in Hl'.
Qed.

Lemma first_for_key_lt lines i k obj :
  first_for_key lines i k obj → (i < length lines)%nat.
Proof. intros (l & Hl & _). by apply lookup_lt_Some in Hl. Qed.

(** At most one line is the first for a key. *)
Lemma first_for_key_inj lines i j k obj obj' :
  first_for_key lines i k obj → first_for_key lines j k obj' →
  i = j ∧ obj = obj'.
Proof.
  intros (l & Hl & Hy & Hfirst) (l' & Hl' & Hy' & Hfirst').
  destruct (Nat.lt_trichotomy i j) as [Hlt|[->|Hlt]].
  - by destruct (Hfirst' i l obj).
  - simplify_eq. split; [done|]. by destruct (yields_fun _ _ _ _ _ Hy Hy').
  - by destruct (Hfirst j l' obj').
Qed.

Lemma yields_dec line k : (∃ obj, yields line k obj) ∨ (∀ obj, ¬ yields line k obj).
Proof.
  unfold yields. destruct (truthy (trim line)); [|right; by intros ? [? _]].
  destruct (try_line line) as [[obj k']|e]; [|right; by intros ? [_ ?]].
  destruct (decide (k' = k)) as [->|Hne]; [left; eauto|].
  right. intros ? [_ ?]. congruence.
Qed.

(** A key has a first line, or no line yields it. *)
Lemma first_for_key_total lines k :
  (∃ i obj, first_for_key lines i k obj)
  ∨ (∀ j line obj, lines !! j = Some line → ¬ yields line k obj).
Proof.
  induction lines as [|l lines IH] using rev_ind.
  - right. intros j line obj Hl. by rewrite lookup_nil in Hl.
  - destruct IH as [(i & obj & Hf)|Hno].
    + left. exists i, obj. apply first_for_key_snoc. by left.
    + destruct (yields_dec l k) as [[obj Hy]|Hn].
      * left. exists (length lines), obj. apply first_for_key_snoc.
        right. split_and!; [done..|]. intros j l' obj'. apply Hno.
      * right. intros j line obj Hl.
        apply lookup_app_Some in Hl as [Hl|[_ Hl]]; [by eapply Hno|].
        destruct (j - length lines)%nat; simpl in Hl; [|by rewrite lookup_nil in Hl].
        simplify_eq. apply Hn.
Qed.

(** A key that some line yields has a first line. *)
Lemma first_for_key_exists lines j line k obj :
  lines !! j = Some line → yields line k obj →
  ∃ i obj', first_for_key lines i k obj'.
Proof.
  intros Hl Hy. destruct (first_for_key_total lines k) as [?|Hno]; [done|].
  by destruct (Hno j line obj).
Qed.

Lemma some_yields_snoc lines l k :
  (∃ j line obj, (lines ++ [l]) !! j = Some line ∧ yields line k obj) ↔
  (∃ j line obj, lines !! j = Some line ∧ yields line k obj)
  ∨ (∃ obj, yields l k obj).
Proof.
  split.
  - intros (j & line & obj & Hl & Hy).
    apply lookup_app_Some in Hl as [Hl|[_ Hl]]; [left; eauto|].
    destruct (j - length lines)%nat; simpl in Hl; [|by rewrite lookup_nil in Hl].
    simplify_eq. right. eauto.
  - intros [(j & line & obj & Hl & Hy)|[obj Hy]].
    + exists j, line, obj. split; [|done].
      apply lookup_app_Some. by left.
    + exists (length lines), l, obj. split; [|done].
      by rewrite lookup_app_r, Nat.sub_diag.
Qed.

(** *** The invariant of the loop

    After any number of lines the set holds the keys that the lines read
    so far yield, and the array holds the records of the lines that are
    first for their key, in the order of the lines. *)
Lemma for_await_invariant lines :
  let st := for_await lines initial in
  (∀ k, k ∈ set st ↔ ∃ j line obj, lines !! j = Some line ∧ yields line k obj)
  ∧ first_occurrences lines (jsonObjects st).
Proof.
  induction lines as [|l lines IH] using rev_ind; simpl.
  - split.
    + intros k. split; [set_solver|].
      intros (j & line & obj & Hl & _). by rewrite lookup_nil in Hl.
    + exists []. split_and!; [constructor| |constructor].
      intros i. split; [by intros ?%elem_of_nil|].
      intros (k & obj & Hf%first_for_key_lt). simpl in Hf. lia.
  - rewrite for_await_snoc. simpl in IH.
    set (st := for_await lines initial) in *.
    destruct IH as [Hset (idxs & Hsorted & Hidx & Hout)].
    destruct (body_cases st l) as [(k & obj & Hy)|(Hno & Hs & Ho)].
    + destruct (decide (k ∈ set st)) as [Hin|Hnin].
      * rewrite (body_seen _ _ _ _ Hy Hin). split.
        -- intros k'. rewrite some_yields_snoc, <- Hset. split; [by left|].
           intros [?|[obj' Hy']]; [done|].
           by destruct (yields_fun _ _ _ _ _ Hy Hy') as [-> _].
        -- exists idxs.
           assert (∀ i k' obj', first_for_key (lines ++ [l]) i k' obj'
                                ↔ first_for_key lines i k' obj') as Hsame.
           { intros i k' obj'. rewrite first_for_key_snoc.
             split; [|by left]. intros [?|(-> & Hy' & Hfirst)]; [done|].
             destruct (yields_fun _ _ _ _ _ Hy Hy') as [-> _].
             apply Hset in Hin as (j & l' & o' & Hl' & Hyl').
             by destruct (Hfirst j l' o'). }
           split_and!; [done| |].
           ++ intros i. rewrite Hidx. by setoid_rewrite Hsame.
           ++ eapply Forall2_impl; [done|]. simpl.
              intros o i [k' Hf]. exists k'. by apply Hsame.
      * rewrite (body_fresh _ _ _ _ Hy Hnin). simpl. split.
        -- intros k'. rewrite some_yields_snoc, <- Hset.
           rewrite elem_of_union, elem_of_singleton. split.
           ++ intros [->|?]; [right; eauto | by left].
           ++ intros [?|[obj' Hy']]; [by right|].
              left. by destruct (yields_fun _ _ _ _ _ Hy Hy') as [-> _].
        -- exists (idxs ++ [length lines]).
           assert (first_for_key (lines ++ [l]) (length lines) k obj) as Hnew.
           { apply first_for_key_snoc. right. split_and!; [done..|].
             intros j l' o' Hl' Hy'. apply Hnin, Hset. eauto. }
           split_and!.
           ++ apply StronglySorted_app_2; [|done|repeat constructor].
              intros i n Hi ->%list_elem_of_singleton.
              apply Hidx in Hi as (k' & o' & Hf).
              by apply first_for_key_lt in Hf.
           ++ intros i. rewrite elem_of_app, list_elem_of_singleton, Hidx.
              setoid_rewrite first_for_key_snoc. split.
              ** intros [(k' & o' & Hf)| ->]; [by eauto 6|].
                 apply first_for_key_snoc in Hnew. eauto.
              ** intros (k' & o' & [Hf|[-> _]]); [left; eauto | by right].
           ++ apply Forall2_app.
              ** eapply Forall2_impl; [done|]. simpl.
                 intros o i [k' Hf]. exists k'.
                 apply first_for_key_snoc. by left.
              ** repeat constructor. by exists k.
    + rewrite Hs, Ho. split.
      * intros k. rewrite some_yields_snoc, <- Hset. split; [by left|].
        intros [?|[obj Hy]]; [done|]. by destruct (Hno k obj).
      * exists idxs.
        assert (∀ i k' obj', first_for_key (lines ++ [l]) i k' obj'
                             ↔ first_for_key lines i k' obj') as Hsame.
        { intros i k' obj'. rewrite first_for_key_snoc.
          split; [|by left]. intros [?|(_ & Hy' & _)]; [done|].
          by destruct (Hno k' obj'). }
        split_and!; [done| |].
        -- intros i. rewrite Hidx. by setoid_rewrite Hsame.
        -- eapply Forall2_impl; [done|]. simpl.
           intros o i [k' Hf]. exists k'. by apply Hsame.
Qed.

(** *** What is printed does not steer the loop *)

Lemma body_frame line s o :
  ∃ s' o' more, ∀ c,
    body {| set := s; jsonObjects := o; console := c |} line
    = {| set := s'; jsonObjects := o'; console := c ++ more |}.
Proof.
  unfold body. simpl. destruct (truthy (trim line)).
  - destruct (try_line line) as [[obj k]|e].
    + destruct (decide (k ∈ s)).
      * exists s, o, []. intros c. by rewrite app_nil_r.
      * eexists _, _, []. intros c. by rewrite app_nil_r.
    + by eexists _, _, [_].
  - exists s, o, []. intros c. by rewrite app_nil_r.
Qed.

Lemma for_await_frame lines s o :
  ∃ s' o' more, ∀ c,
    for_await lines {| set := s; jsonObjects := o; console := c |}
    = {| set := s'; jsonObjects := o'; console := c ++ more |}.
Proof.
  revert s o. induction lines as [|l lines IH]; intros s o.
  - exists s, o, []. intros c. simpl. by rewrite app_nil_r.
  - destruct (body_frame l s o) as (s1 & o1 & m1 & Hb).
    destruct (IH s1 o1) as (s2 & o2 & m2 & Hf).
    exists s2, o2, (m1 ++ m2). intros c.
    unfold for_await in *. simpl. rewrite Hb, Hf. by rewrite <- app_assoc.
Qed.

(** *** The call on a readable file *)

Lemma read_Readable fs p text :
  fs p = Readable text →
  readJsonFileLineByLine fs p
  = {| printed := console (for_await (createInterface text) initial);
       settled := Normal (jsonObjects (for_await (createInterface text) initial)) |}.
Proof. intros Hfs. unfold readJsonFileLineByLine. by rewrite Hfs. Qed.

Lemma StronglySorted_lt_NoDup (l : list nat) : StronglySorted lt l → NoDup l.
Proof.
  induction 1 as [|x l _ IH Hall]; constructor; [|done].
  intros Hin. rewrite Forall_forall in Hall. specialize (Hall x Hin). lia.
Qed.

Lemma first_for_key_at lines i k k' obj obj' :
  first_for_key lines i k obj → first_for_key lines i k' obj' →
  k = k' ∧ obj = obj'.
Proof.
  intros (l & Hl & Hy & _) (l' & Hl' & Hy' & _). simplify_eq.
  by eapply yields_fun.
Qed.

(** Records at two places of the result with one key are at one place. *)
Lemma first_occurrences_distinct lines out a b obj obj' :
  first_occurrences lines out →
  out !! a = Some obj → out !! b = Some obj' →
  mangled obj = mangled obj' → a = b.
Proof.
  intros (idxs & Hsorted%StronglySorted_lt_NoDup & Hidx & Hout) Ha Hb Heq.
  destruct (Forall2_lookup_l _ _ _ _ _ Hout Ha) as (i & Hi & k & Hf).
  destruct (Forall2_lookup_l _ _ _ _ _ Hout Hb) as (i' & Hi' & k' & Hf').
  assert (mangled obj = Normal k) as Hk.
  { destruct Hf as (l & _ & Hy & _). by eapply yields_mangled. }
  assert (mangled obj' = Normal k') as Hk'.
  { destruct Hf' as (l & _ & Hy & _). by eapply yields_mangled. }
  assert (k = k') as -> by congruence.
  destruct (first_for_key_inj _ _ _ _ _ _ Hf Hf') as [-> _].
  by eapply NoDup_lookup.
Qed.

Lemma first_occurrences_keyed lines out a obj :
  first_occurrences lines out → out !! a = Some obj →
  ∃ k, mangled obj = Normal k.
Proof.
  intros (idxs & _ & _ & Hout) Ha.
  destruct (Forall2_lookup_l _ _ _ _ _ Hout Ha) as (i & _ & k & l & _ & Hy & _).
  exists k. by eapply yields_mangled.
Qed.

(** The record of the first line of a key is in the result, once. *)
Lemma first_occurrences_first lines out i k first :
  first_occurrences lines out → first_for_key lines i k first →
  ∃ a, out !! a = Some first
       ∧ ∀ b obj, out !! b = Some obj → mangled obj = Normal k → b = a.
Proof.
  intros Hfo Hf. pose proof Hfo as (idxs & Hsorted & Hidx & Hout).
  assert (i ∈ idxs) as (a & Ha)%list_elem_of_lookup by (apply Hidx; eauto).
  destruct (Forall2_lookup_r _ _ _ _ _ Hout Ha) as (obj & Hobj & k' & Hf').
  destruct (first_for_key_at _ _ _ _ _ _ Hf Hf') as [<- <-].
  exists a. split; [done|]. intros b obj' Hb Hk.
  eapply first_occurrences_distinct; [done..|].
  rewrite Hk. symmetry. destruct Hf as (l & _ & Hy & _). by eapply yields_mangled.
Qed.

Lemma try_line_SyntaxError line :
  JSON_parse line = None → try_line line = Throw SyntaxError.
Proof. intros Hp. unfold try_line. by rewrite Hp. Qed.

Lemma for_await_insert before line after :
  for_await (before ++ line :: after) initial
  = for_await after (body (for_await before initial) line).
Proof. by rewrite for_await_app. Qed.

(** *** Deduplication *)

(** C1.  On a readable file the call returns a sequence in which every
    record has a composite key and no two records at different places have
    equal keys; and whenever a non-blank line decodes to a record with key
    [k], the record of the first such line is in the sequence, at the only
    place that holds a record with key [k]. *)
Theorem dedup_correctness fs p text :
  fs p = Readable text →
  ∃ out, settled (readJsonFileLineByLine fs p) = Normal out
    ∧ (∀ a obj, out !! a = Some obj → ∃ k, mangled obj = Normal k)
    ∧ (∀ a b obj obj', out !! a = Some obj → out !! b = Some obj' →
         mangled obj = mangled obj' → a = b)
    ∧ (∀ j line k obj,
         createInterface text !! j = Some line → yields line k obj →
         ∃ i first a,
           first_for_key (createInterface text) i k first
           ∧ out !! a = Some first
           ∧ ∀ b obj', out !! b = Some obj' → mangled obj' = Normal k → b = a).
Proof.
  intros Hfs. rewrite (read_Readable _ _ _ Hfs). simpl.
  destruct (for_await_invariant (createInterface text)) as [_ Hfo].
  eexists. split; [done|]. split_and!.
  - intros a obj. by apply (first_occurrences_keyed _ _ _ _ Hfo).
  - intros a b obj obj'. by apply (first_occurrences_distinct _ _ _ _ _ _ Hfo).
  - intros j line k obj Hl Hy.
    destruct (first_for_key_exists _ _ _ _ _ Hl Hy) as (i & first & Hf).
    destruct (first_occurrences_first _ _ _ _ _ Hfo Hf) as (a & Ha & Huniq).
    by exists i, first, a.
Qed.

(** *** Order *)

(** C2.  On a readable file the call returns the records of the lines that
    are first for their key, in the order of those lines; and a file that
    has one more line, whose key a line before it already yields, gives the
    same outcome: the later line neither moves nor replaces a record. *)
Theorem order_preservation fs p text :
  fs p = Readable text →
  ∃ out, settled (readJsonFileLineByLine fs p) = Normal out
    ∧ first_occurrences (createInterface text) out
    ∧ ∀ fs' p' text' before after line j earlier k obj obj',
        fs' p' = Readable text' →
        createInterface text = before ++ after →
        createInterface text' = before ++ line :: after →
        before !! j = Some earlier → yields earlier k obj →
        yields line k obj' →
        readJsonFileLineByLine fs' p' = readJsonFileLineByLine fs p.
Proof.
  intros Hfs. rewrite (read_Readable _ _ _ Hfs). simpl.
  eexists. split; [done|]. split; [apply for_await_invariant|].
  intros fs' p' text' before after line j earlier k obj obj'
    Hfs' Hlines Hlines' Hj Hearlier Hline.
  rewrite (read_Readable _ _ _ Hfs'), Hlines, Hlines'.
  rewrite for_await_insert, for_await_app.
  rewrite (body_seen _ _ _ _ Hline); [done|].
  apply (for_await_invariant before). eauto.
Qed.

(** *** Lines that fail to decode *)

(** C3.  A file that has one more line, on which [JSON.parse] throws, makes
    the call return the same sequence: the line leaves the set and the
    array as they are and the read goes on.  When the line is not blank,
    what is printed differs by the one diagnostic of that line; a blank
    line is skipped before the decoder sees it. *)
Theorem malformed_line_resilience fs p text fs' p' text' before after line :
  fs p = Readable text → fs' p' = Readable text' →
  createInterface text = before ++ after →
  createInterface text' = before ++ line :: after →
  JSON_parse line = None →
  (∃ out, settled (readJsonFileLineByLine fs p) = Normal out
          ∧ settled (readJsonFileLineByLine fs' p') = Normal out)
  ∧ (∀ st, set (body st line) = set st
           ∧ jsonObjects (body st line) = jsonObjects st)
  ∧ (¬ blank line →
     ∃ c1 c2, printed (readJsonFileLineByLine fs p) = c1 ++ c2
              ∧ printed (readJsonFileLineByLine fs' p')
                = c1 ++ diagnostic line SyntaxError :: c2)
  ∧ (blank line →
     printed (readJsonFileLineByLine fs' p') = printed (readJsonFileLineByLine fs p)).
Proof.
  intros Hfs Hfs' Hlines Hlines' Hparse.
  rewrite (read_Readable _ _ _ Hfs), (read_Readable _ _ _ Hfs'). simpl.
  rewrite Hlines, Hlines', for_await_insert, for_await_app.
  pose proof (try_line_SyntaxError _ Hparse) as Htry.
  assert (∀ st, set (body st line) = set st
                ∧ jsonObjects (body st line) = jsonObjects st) as Hbody.
  { intros st. destruct (body_cases st line) as [(k & obj & [_ Hy])|(_ & ? & ?)];
      [congruence | done]. }
  destruct (for_await before initial) as [s o c] eqn:Hbefore.
  destruct (for_await_frame after s o) as (s' & o' & more & Hframe).
  destruct (truthy (trim line)) eqn:Ht.
  - rewrite (body_throw _ _ _ Ht Htry). simpl. rewrite !Hframe. simpl.
    split_and!; [by eexists|done| |].
    + intros _. exists c, more. by rewrite <- app_assoc.
    + intros Hb%truthy_trim_false. congruence.
  - apply truthy_trim_false in Ht. rewrite (body_blank _ _ Ht).
    split_and!; [by eexists|done| |done].
    intros Hnb. by destruct Hnb.
Qed.

(** *** Blank lines *)

(** C6.  A file that has one more line, empty or of white space only,
    makes the call return the same sequence and print the same
    diagnostics. *)
Theorem blank_line_transparency fs p text fs' p' text' before after line :
  fs p = Readable text → fs' p' = Readable text' →
  createInterface text = before ++ after →
  createInterface text' = before ++ line :: after →
  blank line →
  readJsonFileLineByLine fs' p' = readJsonFileLineByLine fs p
  ∧ ∃ out, settled (readJsonFileLineByLine fs p) = Normal out.
Proof.
  intros Hfs Hfs' Hlines Hlines' Hblank.
  rewrite (read_Readable _ _ _ Hfs), (read_Readable _ _ _ Hfs'). simpl.
  rewrite Hlines, Hlines', for_await_insert, for_await_app.
  rewrite (body_blank _ _ Hblank). split; [done | by eexists].
Qed.

Lemma for_await_blank lines st : Forall blank lines → for_await lines st = st.
Proof.
  induction 1 as [|l lines Hl _ IH]; [done|].
  unfold for_await in *. simpl. by rewrite (body_blank _ _ Hl).
Qed.

(** *** The equations of the line splitter *)

Section Splitter.
Context (ended : bool) (buffer : jsstring).

Lemma lines_from_CR_LF rest :
  lines_from ended buffer (CR :: LF :: rest) = buffer :: lines_from ended [] rest.
Proof. done. Qed.

Lemma lines_from_CR c rest :
  (c =? LF) = false →
  lines_from ended buffer (CR :: c :: rest)
  = buffer :: lines_from ended [] (c :: rest).
Proof. intros Hc. cbn [lines_from]. by rewrite N.eqb_refl, Hc. Qed.

Lemma lines_from_CR_last :
  lines_from ended buffer [CR] = buffer :: lines_from ended [] [].
Proof. done. Qed.

Lemma lines_from_ending c rest :
  (c =? CR) = false → (c =? LF) || line_separator c = true →
  lines_from ended buffer (c :: rest) = buffer :: lines_from ended [] rest.
Proof. intros Hcr Hend. cbn [lines_from]. by rewrite Hcr, Hend. Qed.

Lemma lines_from_char c rest :
  (c =? CR) = false → (c =? LF) || line_separator c = false →
  lines_from ended buffer (c :: rest) = lines_from ended (buffer ++ [c]) rest.
Proof. intros Hcr Hend. cbn [lines_from]. by rewrite Hcr, Hend. Qed.

Lemma lines_from_nil :
  lines_from ended buffer [] = if ended && truthy buffer then [buffer] else [].
Proof. done. Qed.

End Splitter.

(** A text cut after an LF splits into the lines of its two parts. *)
Lemma lines_from_app_LF_bounded ended n : ∀ t buffer text,
  (length t ≤ n)%nat →
  lines_from ended buffer ((t ++ [LF]) ++ text)
  = lines_from false buffer (t ++ [LF]) ++ lines_from ended [] text.
Proof.
  induction n as [|n IH]; intros t buffer text Hlen.
  { destruct t; [|simpl in Hlen; lia]. cbn [app].
    by rewrite !(lines_from_ending _ _ LF). }
  destruct t as [|c rest]; [cbn [app]; by rewrite !(lines_from_ending _ _ LF)|].
  simpl in Hlen. cbn [app].
  destruct (c =? CR) eqn:Hcr.
  - apply N.eqb_eq in Hcr as ->. destruct rest as [|c' rest'].
    + cbn [app]. by rewrite !lines_from_CR_LF.
    + simpl in Hlen. cbn [app]. destruct (c' =? LF) eqn:Hlf.
      * apply N.eqb_eq in Hlf as ->. rewrite !lines_from_CR_LF.
        cbn [app]. f_equal. apply IH. lia.
      * rewrite !lines_from_CR by done. cbn [app]. f_equal.
        apply (IH (c' :: rest')). simpl. lia.
  - destruct ((c =? LF) || line_separator c) eqn:Hend.
    + rewrite !lines_from_ending by done. cbn [app]. f_equal. apply IH. lia.
    + rewrite !lines_from_char by done. apply IH. lia.
Qed.

Lemma lines_from_app_LF ended t buffer text :
  lines_from ended buffer ((t ++ [LF]) ++ text)
  = lines_from false buffer (t ++ [LF]) ++ lines_from ended [] text.
Proof. by apply (lines_from_app_LF_bounded ended (length t)). Qed.

Lemma lines_from_plain buffer line :
  plain line → lines_from false buffer (line ++ [LF]) = [buffer ++ line].
Proof.
  intros Hplain. revert buffer.
  induction Hplain as [|c line [Hcr Hend] _ IH]; intros buffer.
  - cbn [app]. rewrite (lines_from_ending _ _ LF) by done. by rewrite app_nil_r.
  - cbn [app]. rewrite lines_from_char by done. rewrite IH.
    by rewrite <- app_assoc.
Qed.

(** A line put into a text, where a line of the text stops, is a line more
    among the lines of the text. *)
Lemma createInterface_insert_line before line after :
  ends_line before → plain line →
  createInterface (before ++ after)
  = complete_lines before ++ createInterface after
  ∧ createInterface (before ++ (line ++ [LF]) ++ after)
    = complete_lines before ++ line :: createInterface after.
Proof.
  intros Hbefore Hline. unfold createInterface, complete_lines.
  assert (lines_from true [] ((line ++ [LF]) ++ after)
          = line :: lines_from true [] after) as Hinsert.
  { by rewrite lines_from_app_LF, lines_from_plain. }
  destruct Hbefore as [->|[t ->]]; [done|].
  by rewrite !(lines_from_app_LF _ t), Hinsert.
Qed.

Lemma lines_from_blank_bounded ended n : ∀ text buffer,
  (length text ≤ n)%nat →
  blank buffer → blank text → Forall blank (lines_from ended buffer text).
Proof.
  assert (∀ buffer, blank buffer → Forall blank (lines_from ended buffer []))
    as Hnil.
  { intros buffer Hbuf. rewrite lines_from_nil.
    destruct (ended && truthy buffer); by repeat constructor. }
  induction n as [|n IH]; intros text buffer Hlen Hbuf Htext.
  { destruct text; [by apply Hnil | simpl in Hlen; lia]. }
  destruct text as [|c rest]; [by apply Hnil|].
  simpl in Hlen. apply Forall_cons in Htext as [Hc Hrest].
  destruct (c =? CR) eqn:Hcr.
  - apply N.eqb_eq in Hcr as ->. destruct rest as [|c' rest'].
    + rewrite lines_from_CR_last. constructor; [done | by apply Hnil, blank_nil].
    + simpl in Hlen. destruct (c' =? LF) eqn:Hlf.
      * apply N.eqb_eq in Hlf as ->. rewrite lines_from_CR_LF.
        constructor; [done|]. apply IH; [lia|apply blank_nil|].
        by apply Forall_cons in Hrest as [_ ?].
      * rewrite lines_from_CR by done.
        constructor; [done|]. apply IH; [simpl; lia|apply blank_nil|done].
  - destruct ((c =? LF) || line_separator c) eqn:Hend.
    + rewrite lines_from_ending by done.
      constructor; [done|]. apply IH; [lia|apply blank_nil|done].
    + rewrite lines_from_char by done.
      apply IH; [lia| |done]. apply Forall_app. by repeat constructor.
Qed.

(** A text of white space and line endings only has blank lines only. *)
Lemma createInterface_blank text : blank text → Forall blank (createInterface text).
Proof.
  intros Htext.
  apply (lines_from_blank_bounded true (length text)); [done|apply blank_nil|done].
Qed.

(** C8.  On a readable file with no line at all, or with blank lines only,
    the call returns the empty sequence; it does not fail and prints
    nothing. *)
Theorem empty_input_empty_output fs p text :
  fs p = Readable text → Forall blank (createInterface text) →
  readJsonFileLineByLine fs p = {| printed := []; settled := Normal [] |}.
Proof.
  intros Hfs Hblank. rewrite (read_Readable _ _ _ Hfs).
  by rewrite (for_await_blank _ _ Hblank).
Qed.

(** *** Failure of the stream *)

(** C4.  When the stream of the file emits an error (before any data when
    the file cannot be opened) the promise of the call is rejected with
    that error, and is not fulfilled with any sequence. *)
Theorem missing_resource_is_fatal fs p delivered e :
  fs p = Errored delivered e →
  settled (readJsonFileLineByLine fs p) = Throw e
  ∧ ∀ out, settled (readJsonFileLineByLine fs p) ≠ Normal out.
Proof.
  intros Hfs. unfold readJsonFileLineByLine. rewrite Hfs. simpl.
  split; [done | by intros out].
Qed.

(** *** Line endings *)

Lemma for_await_cons line lines st :
  for_await (line :: lines) st = for_await lines (body st line).
Proof. done. Qed.

Lemma lf_to_crlf_cons c text :
  lf_to_crlf (c :: text) = (if c =? LF then [CR; LF] else [c]) ++ lf_to_crlf text.
Proof. done. Qed.

#[local] Arguments for_await : simpl never.

Lemma for_await_lf_to_crlf_bounded ended n : ∀ text buffer st,
  (length text ≤ n)%nat →
  for_await (lines_from ended buffer (lf_to_crlf text)) st
  = for_await (lines_from ended buffer text) st.
Proof.
  induction n as [|n IH]; intros text buffer st Hlen.
  { destruct text; [done | simpl in Hlen; lia]. }
  destruct text as [|c rest]; [done|]. simpl in Hlen.
  rewrite lf_to_crlf_cons.
  destruct (c =? LF) eqn:Hlf.
  - (* LF becomes CR LF: one ending either way *)
    apply N.eqb_eq in Hlf as ->. cbn [app].
    rewrite lines_from_CR_LF, (lines_from_ending _ _ LF) by done.
    rewrite !for_await_cons. apply IH. lia.
  - cbn [app]. destruct (c =? CR) eqn:Hcr.
    + apply N.eqb_eq in Hcr as ->.
      destruct rest as [|c' rest']; [done|].
      simpl in Hlen. rewrite lf_to_crlf_cons. destruct (c' =? LF) eqn:Hlf'.
      * (* CR LF becomes CR CR LF: an empty line more *)
        apply N.eqb_eq in Hlf' as ->. cbn [app].
        rewrite (lines_from_CR _ _ CR) by done.
        rewrite !lines_from_CR_LF, !for_await_cons.
        rewrite (body_blank _ [] blank_nil). apply IH. lia.
      * (* a CR of its own ends the line in both texts *)
        cbn [app]. rewrite !lines_from_CR, !for_await_cons by done.
        specialize (IH (c' :: rest') [] (body st buffer)).
        rewrite lf_to_crlf_cons, Hlf' in IH. apply IH. simpl. lia.
    + destruct ((c =? LF) || line_separator c) eqn:Hend.
      * rewrite !lines_from_ending, !for_await_cons by done. apply IH. lia.
      * rewrite !lines_from_char by done. apply IH. lia.
Qed.

(** Writing CR LF for every LF of a text changes its lines only by empty
    ones, which the loop skips. *)
Lemma for_await_lf_to_crlf ended text buffer st :
  for_await (lines_from ended buffer (lf_to_crlf text)) st
  = for_await (lines_from ended buffer text) st.
Proof. by apply (for_await_lf_to_crlf_bounded ended (length text)). Qed.

(** Lines that hold no LF, each ended by LF, become the same lines each
    ended by CR LF. *)
Lemma lf_to_crlf_unlines (lines : list jsstring) :
  Forall (λ line, LF ∉ line) lines →
  lf_to_crlf (concat ((λ line, line ++ [LF]) <$> lines))
  = concat ((λ line, line ++ [CR; LF]) <$> lines).
Proof.
  assert (∀ line, LF ∉ line → lf_to_crlf line = line) as Hfree.
  { induction line as [|c line IH]; [done|]. intros Hnin.
    rewrite lf_to_crlf_cons. apply not_elem_of_cons in Hnin as [Hc Hnin].
    destruct (c =? LF) eqn:E; [by apply N.eqb_eq in E|].
    simpl. by rewrite IH. }
  assert (∀ a b, lf_to_crlf (a ++ b) = lf_to_crlf a ++ lf_to_crlf b) as Happ.
  { intros a b. apply flat_map_app. }
  induction 1 as [|line lines Hline _ IH]; [done|].
  rewrite !fmap_cons. cbn [concat].
  rewrite !Happ, IH, (Hfree _ Hline). by rewrite <- !app_assoc.
Qed.

(** C7.  A file read to its end gives the same outcome, sequence and
    diagnostics, as the file whose text has CR LF wherever the first has
    LF. *)
Theorem crlf_equivalent_to_lf fs p fs' p' text :
  fs p = Readable text → fs' p' = Readable (lf_to_crlf text) →
  readJsonFileLineByLine fs' p' = readJsonFileLineByLine fs p.
Proof.
  intros Hfs Hfs'.
  rewrite (read_Readable _ _ _ Hfs), (read_Readable _ _ _ Hfs').
  unfold createInterface. by rewrite for_await_lf_to_crlf.
Qed.

Corollary crlf_equivalent_to_lf_lines fs p fs' p' (lines : list jsstring) :
  Forall (λ line, LF ∉ line) lines →
  fs p = Readable (concat ((λ line, line ++ [LF]) <$> lines)) →
  fs' p' = Readable (concat ((λ line, line ++ [CR; LF]) <$> lines)) →
  readJsonFileLineByLine fs' p' = readJsonFileLineByLine fs p.
Proof.
  intros Hfree Hfs Hfs'. rewrite <- (lf_to_crlf_unlines _ Hfree) in Hfs'.
  rewrite (read_Readable _ _ _ Hfs), (read_Readable _ _ _ Hfs').
  unfold createInterface. by rewrite for_await_lf_to_crlf.
Qed.

(** *** The composite key *)

Lemma mangled_inv obj k :
  mangled obj = Normal k →
  ∃ s o l r, Get obj field_s = Normal s ∧ ToString_operand s = Normal l
             ∧ Get obj field_o = Normal o ∧ ToString_operand o = Normal r
             ∧ k = l ++ js "::" ++ r.
Proof.
  unfold mangled. intros Hk.
  destruct (Get obj field_s) as [s|] eqn:Hs; simpl in Hk; [|done].
  destruct (ToString_operand s) as [l|] eqn:Hl; simpl in Hk; [|done].
  destruct (Get obj field_o) as [o|] eqn:Ho; simpl in Hk; [|done].
  destruct (ToString_operand o) as [r|] eqn:Hr; simpl in Hk; [|done].
  exists s, o, l, r. split_and!; [done..|].
  simplify_eq. by rewrite <- app_assoc.
Qed.

Lemma mangled_JObject properties :
  mangled (JObject properties)
  = (l ← ToString_operand (lookup_property (js "s") properties);
     r ← ToString_operand (lookup_property (js "o") properties);
     Normal (l ++ js "::" ++ r)).
Proof.
  unfold mangled. simpl.
  destruct (ToString_operand (lookup_property (js "s") properties)); [|done].
  simpl.
  destruct (ToString_operand (lookup_property (js "o") properties)); [|done].
  simpl. by rewrite <- app_assoc.
Qed.

(** The call on a file of which the last line yields a record. *)
Lemma read_snoc_yields fs p lines line k obj text :
  fs p = Readable text → createInterface text = lines ++ [line] →
  yields line k obj →
  settled (readJsonFileLineByLine fs p)
  = Normal (jsonObjects (for_await lines initial)
            ++ if decide (k ∈ set (for_await lines initial)) then [] else [obj]).
Proof.
  intros Hfs Hlines Hy. rewrite (read_Readable _ _ _ Hfs). simpl.
  rewrite Hlines, for_await_snoc.
  destruct (decide (k ∈ set (for_await lines initial))) as [Hin|Hnin].
  - rewrite (body_seen _ _ _ _ Hy Hin). by rewrite app_nil_r.
  - by rewrite (body_fresh _ _ _ _ Hy Hnin).
Qed.

(** C5.  The key of a decoded record is the string of its [s], then ["::"],
    then the string of its [o], the very strings when both are strings; and
    the record of a line is discarded exactly when a line before it yields
    an equal key, code unit by code unit. *)
Theorem composite_key :
  (∀ obj k, mangled obj = Normal k →
     ∃ s o l r, Get obj field_s = Normal s ∧ ToString_operand s = Normal l
                ∧ Get obj field_o = Normal o ∧ ToString_operand o = Normal r
                ∧ k = l ++ js "::" ++ r)
  ∧ (∀ properties s o,
       lookup_property (js "s") properties = Some (JString s) →
       lookup_property (js "o") properties = Some (JString o) →
       mangled (JObject properties) = Normal (s ++ js "::" ++ o))
  ∧ (∀ fs p text fs' p' text' line k obj,
       fs p = Readable text → fs' p' = Readable text' →
       createInterface text' = createInterface text ++ [line] →
       yields line k obj →
       ∃ out, settled (readJsonFileLineByLine fs p) = Normal out
         ∧ ((∃ j earlier obj', createInterface text !! j = Some earlier
                               ∧ yields earlier k obj') →
            settled (readJsonFileLineByLine fs' p') = Normal out)
         ∧ ((∀ j earlier obj', createInterface text !! j = Some earlier →
                               ¬ yields earlier k obj') →
            settled (readJsonFileLineByLine fs' p') = Normal (out ++ [obj]))).
Proof.
  split_and!.
  - apply mangled_inv.
  - intros properties s o Hs Ho. rewrite mangled_JObject, Hs, Ho. done.
  - intros fs p text fs' p' text' line k obj Hfs Hfs' Hlines Hy.
    rewrite (read_snoc_yields _ _ _ _ _ _ _ Hfs' Hlines Hy).
    rewrite (read_Readable _ _ _ Hfs). simpl.
    destruct (for_await_invariant (createInterface text)) as [Hset _].
    eexists. split; [done|]. split.
    + intros Hex%Hset. rewrite decide_True by done. by rewrite app_nil_r.
    + intros Hno. rewrite decide_False; [done|].
      intros (j & earlier & obj' & Hj & Hy')%Hset. by eapply Hno.
Qed.

(** *** Values that are not objects *)

Lemma mangled_primitive_or_array v :
  primitive_or_array v → mangled v = Normal (js "undefined::undefined").
Proof. by destruct v. Qed.

(** C9.  A non-blank line that decodes to [null] is dropped and reported:
    reading [s] of [null] throws inside the guarded region.  A non-blank
    line that decodes to a number, a string, a boolean or an array has the
    key ["undefined::undefined"] and is accepted as a record under it: the
    first such line of a file is returned. *)
Theorem null_and_primitive_lines line v :
  ¬ blank line → JSON_parse line = Some v →
  (v = JNull →
     try_line line = Throw TypeError
     ∧ (∀ st, body st line
              = {| set := set st; jsonObjects := jsonObjects st;
                   console := console st ++ [diagnostic line TypeError] |})
     ∧ (∀ fs p text, fs p = Readable text → createInterface text = [line] →
          readJsonFileLineByLine fs p
          = {| printed := [diagnostic line TypeError]; settled := Normal [] |}))
  ∧ (primitive_or_array v →
     yields line (js "undefined::undefined") v
     ∧ (∀ st, js "undefined::undefined" ∉ set st →
          body st line
          = {| set := {[js "undefined::undefined"]} ∪ set st;
               jsonObjects := jsonObjects st ++ [v];
               console := console st |})
     ∧ (∀ fs p text, fs p = Readable text → createInterface text = [line] →
          readJsonFileLineByLine fs p
          = {| printed := []; settled := Normal [v] |})).
Proof.
  intros Hnb%truthy_trim_true Hparse. split.
  - intros ->.
    assert (try_line line = Throw TypeError) as Htry.
    { unfold try_line. by rewrite Hparse. }
    split_and!; [done| |].
    + intros st. by apply body_throw.
    + intros fs p text Hfs Hlines.
      rewrite (read_Readable _ _ _ Hfs), Hlines.
      unfold for_await. simpl. by rewrite (body_throw _ _ _ Hnb Htry).
  - intros Hv.
    assert (yields line (js "undefined::undefined") v) as Hy.
    { split; [done|]. unfold try_line. rewrite Hparse. simpl.
      by rewrite (mangled_primitive_or_array _ Hv). }
    split_and!; [done| |].
    + intros st Hnin. by apply body_fresh.
    + intros fs p text Hfs Hlines.
      rewrite (read_Readable _ _ _ Hfs), Hlines.
      unfold for_await. simpl. rewrite (body_fresh _ _ _ _ Hy); [done|].
      simpl. set_solver.
Qed.

(** *** Coercion of the two fields *)

Lemma for_await_all_seen lines k st :
  k ∈ set st → Forall (λ line, ∃ v, yields line k v) lines →
  for_await lines st = st.
Proof.
  intros Hin. induction 1 as [|l lines [v Hy] _ IH]; [done|].
  rewrite for_await_cons. by rewrite (body_seen _ _ _ _ Hy Hin).
Qed.

(** A file of which every line yields the same key gives the record of its
    first line. *)
Lemma read_same_key fs p text line lines k first :
  fs p = Readable text → createInterface text = line :: lines →
  yields line k first → Forall (λ l, ∃ v, yields l k v) lines →
  settled (readJsonFileLineByLine fs p) = Normal [first].
Proof.
  intros Hfs Hlines Hy Hall. rewrite (read_Readable _ _ _ Hfs), Hlines. simpl.
  rewrite for_await_cons, (body_fresh _ _ _ _ Hy) by set_solver.
  rewrite (for_await_all_seen _ k); [done|simpl; set_solver|done].
Qed.

Lemma mangled_lacks_both v :
  lacks_both v → mangled v = Normal (js "undefined::undefined").
Proof.
  intros (properties & -> & Hs & Ho). by rewrite mangled_JObject, Hs, Ho.
Qed.

Lemma yields_intro line k obj :
  ¬ blank line → JSON_parse line = Some obj → mangled obj = Normal k →
  yields line k obj.
Proof.
  intros Hnb%truthy_trim_true Hparse Hk. split; [done|].
  unfold try_line. rewrite Hparse. simpl. by rewrite Hk.
Qed.

(** C10.  A field that is missing prints as ["undefined"] in the key; the
    records that lack both fields share the key ["undefined::undefined"],
    and of a file of such records only the first is returned; a record
    whose [s] is the number that prints as ["1"] and a record whose [s] is
    the string ["1"], with the same [o], have equal keys, and of the two,
    in either order, only the first is returned. *)
Theorem key_coercion :
  (∀ properties,
     lookup_property (js "s") properties = None →
     mangled (JObject properties)
     = (r ← ToString_operand (lookup_property (js "o") properties);
        Normal (js "undefined" ++ js "::" ++ r)))
  ∧ (∀ properties,
       lookup_property (js "o") properties = None →
       mangled (JObject properties)
       = (l ← ToString_operand (lookup_property (js "s") properties);
          Normal (l ++ js "::" ++ js "undefined")))
  ∧ (∀ v, lacks_both v → mangled v = Normal (js "undefined::undefined"))
  ∧ (∀ fs p text line lines first,
       fs p = Readable text → createInterface text = line :: lines →
       Forall (λ l, ¬ blank l ∧ ∃ v, JSON_parse l = Some v ∧ lacks_both v)
              (line :: lines) →
       JSON_parse line = Some first →
       settled (readJsonFileLineByLine fs p) = Normal [first])
  ∧ (∀ n properties1 properties2,
       Number_toString n = js "1" →
       lookup_property (js "s") properties1 = Some (JNumber n) →
       lookup_property (js "s") properties2 = Some (JString (js "1")) →
       lookup_property (js "o") properties1 = lookup_property (js "o") properties2 →
       mangled (JObject properties1) = mangled (JObject properties2)
       ∧ ∀ fs p text line1 line2 first second k,
           fs p = Readable text → createInterface text = [line1; line2] →
           ¬ blank line1 → ¬ blank line2 →
           JSON_parse line1 = Some first → JSON_parse line2 = Some second →
           (first = JObject properties1 ∧ second = JObject properties2
            ∨ first = JObject properties2 ∧ second = JObject properties1) →
           mangled (JObject properties1) = Normal k →
           settled (readJsonFileLineByLine fs p) = Normal [first]).
Proof.
  split_and!.
  - intros properties Hs. by rewrite mangled_JObject, Hs.
  - intros properties Ho. rewrite mangled_JObject, Ho.
    by destruct (ToString_operand (lookup_property (js "s") properties)).
  - apply mangled_lacks_both.
  - intros fs p text line lines first Hfs Hlines Hall Hparse.
    assert (Forall (λ l, ∃ v, yields l (js "undefined::undefined") v)
                   (line :: lines)) as Hy.
    { eapply Forall_impl; [done|]. simpl.
      intros l (Hnb & v & Hp & Hv). exists v.
      by apply yields_intro; [..|apply mangled_lacks_both]. }
    apply Forall_cons in Hy as [[v Hv] Hrest].
    rewrite (yields_parse _ _ _ Hv) in Hparse. simplify_eq.
    by eapply read_same_key.
  - intros n properties1 properties2 Hn Hs1 Hs2 Ho.
    assert (mangled (JObject properties1) = mangled (JObject properties2))
      as Heq.
    { rewrite !mangled_JObject, Hs1, Hs2, Ho. simpl. by rewrite Hn. }
    split; [done|].
    intros fs p text line1 line2 first second k
      Hfs Hlines Hnb1 Hnb2 Hp1 Hp2 Hcase Hk.
    assert (mangled first = Normal k ∧ mangled second = Normal k)
      as [Hk1 Hk2].
    { destruct Hcase as [[-> ->]|[-> ->]]; split; congruence. }
    eapply read_same_key; [done..| |].
    + by apply yields_intro.
    + repeat constructor. exists second. by apply yields_intro.
Qed.

(** [first_occurrences] determines the sequence. *)
Lemma first_occurrences_unique lines out out' :
  first_occurrences lines out → first_occurrences lines out' → out = out'.
Proof.
  intros (idxs & Hsorted & Hidx & Hout) (idxs' & Hsorted' & Hidx' & Hout').
  assert (idxs = idxs') as <-.
  { apply (StronglySorted_unique_strong lt); [intros; lia|done..|].
    apply NoDup_Permutation; [by apply StronglySorted_lt_NoDup..|].
    intros i. by rewrite Hidx, Hidx'. }
  apply Forall2_flip in Hout, Hout'.
  eapply Forall2_unique; [done..|]. unfold flip.
  intros i obj obj' [k Hf] [k' Hf'].
  by destruct (first_for_key_at _ _ _ _ _ _ Hf Hf').
Qed.

End Properties.

(** ** Further properties of the reader and of the handler *)

Section Further.
Context `{Runtime}.

Implicit Types (line k : jsstring) (lines : list jsstring) (st : State number).

#[local] Arguments for_await : simpl never.

(** *** When a record has no key *)









(** *** What is printed *)

Lemma body_console st line :
  console (body st line) = console st ++ report line.
Proof.
  unfold body, report. destruct (truthy (trim line)); [|by rewrite app_nil_r].
  destruct (try_line line) as [[obj k]|e]; [|done].
  destruct (decide (k ∈ set st)); simpl; by rewrite app_nil_r.
Qed.

Lemma for_await_console lines : ∀ st,
  console (for_await lines st) = console st ++ flat_map report lines.
Proof.
  induction lines as [|l lines IH]; intros st.
  - unfold for_await. simpl. by rewrite app_nil_r.
  - rewrite for_await_cons, IH, body_console. simpl. by rewrite <- app_assoc.
Qed.



(** *** Counting *)

Lemma body_length st line :
  (length (jsonObjects (body st line))
   ≤ length (jsonObjects st) + (if keyed line then 1 else 0))%nat.
Proof.
  unfold body, keyed. destruct (truthy (trim line)); simpl; [|lia].
  destruct (try_line line) as [[obj k]|e]; simpl; [|lia].
  destruct (decide (k ∈ set st)); simpl; [lia|].
  rewrite length_app. simpl. lia.
Qed.

Lemma for_await_length lines : ∀ st,
  (length (jsonObjects (for_await lines st))
   ≤ length (jsonObjects st) + length (filter (λ l, keyed l = true) lines))%nat.
Proof.
  induction lines as [|l lines IH]; intros st; [unfold for_await; simpl; lia|].
  rewrite for_await_cons. specialize (IH (body st l)).
  pose proof (body_length st l) as Hb.
  rewrite filter_cons. destruct (decide (keyed l = true)) as [E|E].
  - rewrite E in Hb. simpl. lia.
  - apply not_true_is_false in E. rewrite E in Hb. lia.
Qed.

Lemma report_length line :
  (length (report line) + (if keyed line then 1 else 0)
   = if truthy (trim line) then 1 else 0)%nat.
Proof.
  unfold report, keyed. destruct (truthy (trim line)); [|done].
  by destruct (try_line line).
Qed.

(** X3.  Of the non-blank lines of a readable file each one is either
    reported or has a record and a key, never both and never neither; and
    the records returned are at most as many as the lines that have one. *)
Theorem line_accounting fs p text :
  fs p = Readable text →
  ∃ out, settled (readJsonFileLineByLine fs p) = Normal out
    ∧ (length (printed (readJsonFileLineByLine fs p))
       + length (filter (λ l, keyed l = true) (createInterface text))
       = length (filter (λ l, truthy (trim l) = true) (createInterface text)))%nat
    ∧ (length out
       ≤ length (filter (λ l, keyed l = true) (createInterface text)))%nat.
Proof.
  intros Hfs. rewrite (read_Readable _ _ _ Hfs). simpl.
  eexists. split; [done|]. split.
  - rewrite for_await_console. simpl.
    induction (createInterface text) as [|l lines IH]; [done|].
    cbn [flat_map]. rewrite length_app, !filter_cons.
    pose proof (report_length l) as Hl.
    destruct (decide (keyed l = true)) as [E|E%not_true_is_false];
      destruct (decide (truthy (trim l) = true)) as [E'|E'%not_true_is_false];
      rewrite E, E' in Hl; simpl in *; lia.
  - apply (for_await_length _ initial).
Qed.

(** *** The set and the array *)

Lemma for_await_keys lines :
  ∃ ks, Forall2 (λ obj k, mangled obj = Normal k)
                (jsonObjects (for_await lines initial)) ks
        ∧ NoDup ks
        ∧ set (for_await lines initial) = list_to_set ks.
Proof.
  induction lines as [|l lines IH] using rev_ind.
  - exists []. split_and!; [constructor|constructor|done].
  - rewrite for_await_snoc. destruct IH as (ks & Hks & Hnd & Hset).
    destruct (body_cases (for_await lines initial) l)
      as [(k & obj & Hy)|(_ & Hs & Ho)].
    + destruct (decide (k ∈ set (for_await lines initial))) as [Hin|Hnin].
      * rewrite (body_seen _ _ _ _ Hy Hin). eauto.
      * rewrite (body_fresh _ _ _ _ Hy Hnin). simpl.
        exists (ks ++ [k]). split_and!.
        -- apply Forall2_app; [done|]. repeat constructor.
           by eapply yields_mangled.
        -- apply NoDup_app. split_and!; [done| |apply NoDup_singleton].
           intros k' Hk' ->%list_elem_of_singleton.
           apply Hnin. rewrite Hset. by apply elem_of_list_to_set.
        -- rewrite Hset, list_to_set_app_L. simpl.
           by rewrite union_empty_r_L, (comm_L (∪)).
    + exists ks. by rewrite Hs, Ho.
Qed.

(** X4.  After any number of lines the set holds exactly the keys of the
    records in the array, each key once: the two accumulators never drift
    apart, and they have the same size. *)
Theorem set_matches_array lines :
  let st := for_await lines initial in
  (∀ k, k ∈ set st ↔ ∃ obj, obj ∈ jsonObjects st ∧ mangled obj = Normal k)
  ∧ size (set st) = length (jsonObjects st).
Proof.
  simpl. destruct (for_await_keys lines) as (ks & Hks & Hnd & ->). split.
  - intros k. rewrite elem_of_list_to_set. split.
    + intros (i & Hi)%list_elem_of_lookup.
      destruct (Forall2_lookup_r _ _ _ _ _ Hks Hi) as (obj & Hobj & Hk).
      exists obj. split; [|done]. apply list_elem_of_lookup. eauto.
    + intros (obj & (i & Hi)%list_elem_of_lookup & Hk).
      destruct (Forall2_lookup_l _ _ _ _ _ Hks Hi) as (k' & Hk' & Hm).
      assert (k' = k) as -> by congruence.
      apply list_elem_of_lookup. eauto.
  - rewrite size_list_to_set by done. symmetry. by eapply Forall2_length.
Qed.

(** *** Longer files *)

Lemma body_prefix st line :
  jsonObjects st `prefix_of` jsonObjects (body st line)
  ∧ console st `prefix_of` console (body st line)
  ∧ set st ⊆ set (body st line).
Proof.
  unfold body. destruct (truthy (trim line)); [|done].
  destruct (try_line line) as [[obj k]|e]; simpl.
  - destruct (decide (k ∈ set st)); simpl; [done|].
    split_and!; [by apply prefix_app_r|done|by apply union_subseteq_r].
  - split_and!; [done|by apply prefix_app_r|done].
Qed.

Lemma for_await_prefix lines : ∀ st,
  jsonObjects st `prefix_of` jsonObjects (for_await lines st)
  ∧ console st `prefix_of` console (for_await lines st)
  ∧ set st ⊆ set (for_await lines st).
Proof.
  induction lines as [|l lines IH]; intros st; [done|].
  rewrite for_await_cons.
  destruct (body_prefix st l) as (Ho & Hc & Hs).
  destruct (IH (body st l)) as (Ho' & Hc' & Hs').
  split_and!; by etrans.
Qed.

(** X5.  A file that has the lines of another and then more returns the
    sequence of the other and then more, and prints its diagnostics and then
    more: lines that come later never remove, change or move a record. *)
Theorem longer_file_extends fs p text fs' p' text' more :
  fs p = Readable text → fs' p' = Readable text' →
  createInterface text' = createInterface text ++ more →
  ∃ out out', settled (readJsonFileLineByLine fs p) = Normal out
    ∧ settled (readJsonFileLineByLine fs' p') = Normal out'
    ∧ out `prefix_of` out'
    ∧ printed (readJsonFileLineByLine fs p)
      `prefix_of` printed (readJsonFileLineByLine fs' p').
Proof.
  intros Hfs Hfs' Hlines.
  rewrite (read_Readable _ _ _ Hfs), (read_Readable _ _ _ Hfs'), Hlines.
  simpl. rewrite for_await_app.
  destruct (for_await_prefix more (for_await (createInterface text) initial))
    as (Ho & Hc & _).
  by eexists _, _.
Qed.

(** *** Lines read again *)

Lemma for_await_again lines again :
  again ⊆ lines →
  jsonObjects (for_await (lines ++ again) initial)
  = jsonObjects (for_await lines initial)
  ∧ set (for_await (lines ++ again) initial) = set (for_await lines initial).
Proof.
  induction again as [|l again IH] using rev_ind; intros Hsub.
  - by rewrite app_nil_r.
  - rewrite app_assoc, for_await_snoc.
    destruct IH as [IHo IHs].
    { intros x Hx. apply Hsub, elem_of_app. by left. }
    destruct (body_cases (for_await (lines ++ again) initial) l)
      as [(k & obj & Hy)|(_ & Hs & Ho)].
    + rewrite (body_seen _ _ _ _ Hy); [done|].
      apply (for_await_invariant (lines ++ again)).
      assert (l ∈ lines) as (j & Hj)%list_elem_of_lookup.
      { apply Hsub, elem_of_app. right. by apply list_elem_of_singleton. }
      exists j, l, obj. split; [|done]. by apply lookup_app_l_Some.
    + by rewrite Hs, Ho.
Qed.

(** X6.  Lines of the file that come once more at its end, in any order and
    any number, change nothing of what is returned: reading a file written
    twice over gives what reading it once gives. *)
Theorem repeated_lines_add_nothing fs p text fs' p' text' again :
  fs p = Readable text → fs' p' = Readable text' →
  createInterface text' = createInterface text ++ again →
  (∀ line, line ∈ again → line ∈ createInterface text) →
  ∃ out, settled (readJsonFileLineByLine fs p) = Normal out
    ∧ settled (readJsonFileLineByLine fs' p') = Normal out.
Proof.
  intros Hfs Hfs' Hlines Hsub.
  rewrite (read_Readable _ _ _ Hfs), (read_Readable _ _ _ Hfs'), Hlines.
  simpl. destruct (for_await_again (createInterface text) again) as [-> _];
    [done|]. by eexists.
Qed.

(** *** The order of the lines *)

(** X7.  Two files with the same lines in another order return as many
    records, under the same keys; only which record stands for a key, and
    where, depends on the order. *)
Theorem keys_independent_of_order fs p text fs' p' text' :
  fs p = Readable text → fs' p' = Readable text' →
  createInterface text ≡ₚ createInterface text' →
  ∃ out out', settled (readJsonFileLineByLine fs p) = Normal out
    ∧ settled (readJsonFileLineByLine fs' p') = Normal out'
    ∧ length out = length out'
    ∧ ∀ k, (∃ obj, obj ∈ out ∧ mangled obj = Normal k)
           ↔ (∃ obj', obj' ∈ out' ∧ mangled obj' = Normal k).
Proof.
  intros Hfs Hfs' Hperm.
  rewrite (read_Readable _ _ _ Hfs), (read_Readable _ _ _ Hfs'). simpl.
  eexists _, _. split; [done|]. split; [done|].
  assert (set (for_await (createInterface text) initial)
          = set (for_await (createInterface text') initial)) as Hset.
  { apply set_eq. intros k.
    rewrite !(proj1 (for_await_invariant _)).
    split; intros (j & line & obj & Hj%list_elem_of_lookup_2 & Hy).
    - rewrite Hperm in Hj. apply list_elem_of_lookup in Hj as [j' Hj']. eauto.
    - rewrite <- Hperm in Hj. apply list_elem_of_lookup in Hj as [j' Hj']. eauto. }
  destruct (for_await_keys (createInterface text)) as (ks & Hks & Hnd & Hs).
  destruct (for_await_keys (createInterface text')) as (ks' & Hks' & Hnd' & Hs').
  assert (∀ (objs : list (JSON number)) (l : list jsstring),
            Forall2 (λ obj k, mangled obj = Normal k) objs l →
            ∀ k, k ∈ l ↔ ∃ obj, obj ∈ objs ∧ mangled obj = Normal k) as Hmem.
  { intros objs l HF k. split.
    - intros (i & Hi)%list_elem_of_lookup.
      destruct (Forall2_lookup_r _ _ _ _ _ HF Hi) as (obj & Hobj & Hk).
      exists obj. split; [|done]. apply list_elem_of_lookup. eauto.
    - intros (obj & (i & Hi)%list_elem_of_lookup & Hk).
      destruct (Forall2_lookup_l _ _ _ _ _ HF Hi) as (k' & Hk' & Hm).
      assert (k' = k) as -> by congruence.
      apply list_elem_of_lookup. eauto. }
  split.
  - rewrite (Forall2_length _ _ _ Hks), (Forall2_length _ _ _ Hks').
    rewrite <- (size_list_to_set (C := gset jsstring) ks) by done.
    rewrite <- (size_list_to_set (C := gset jsstring) ks') by done.
    by rewrite <- Hs, <- Hs', Hset.
  - intros k. rewrite <- (Hmem _ _ Hks), <- (Hmem _ _ Hks').
    rewrite <- !(elem_of_list_to_set (C := gset jsstring)).
    by rewrite <- Hs, <- Hs', Hset.
Qed.

(** *** Records that the key cannot tell apart *)

Lemma read_two_same_key fs p text line1 line2 first second k :
  fs p = Readable text → createInterface text = [line1; line2] →
  ¬ blank line1 → ¬ blank line2 →
  JSON_parse line1 = Some first → JSON_parse line2 = Some second →
  mangled first = Normal k → mangled second = Normal k →
  settled (readJsonFileLineByLine fs p) = Normal [first].
Proof.
  intros Hfs Hlines Hnb1 Hnb2 Hp1 Hp2 Hk1 Hk2.
  eapply read_same_key; [done..| |].
  - by apply yields_intro.
  - repeat constructor. exists second. by apply yields_intro.
Qed.

(** X8.  The separator is not escaped: a record with [s] = x::y and [o] = z
    and a record with [s] = x and [o] = y::z have the same key, so that of
    two such lines only the first is returned, although no field of the two
    records is equal. *)
Theorem separator_collision x y z properties1 properties2 :
  lookup_property (js "s") properties1 = Some (JString (x ++ js "::" ++ y)) →
  lookup_property (js "o") properties1 = Some (JString z) →
  lookup_property (js "s") properties2 = Some (JString x) →
  lookup_property (js "o") properties2 = Some (JString (y ++ js "::" ++ z)) →
  mangled (JObject properties1) = Normal (x ++ js "::" ++ y ++ js "::" ++ z)
  ∧ mangled (JObject properties2) = Normal (x ++ js "::" ++ y ++ js "::" ++ z)
  ∧ ∀ fs p text line1 line2,
      fs p = Readable text → createInterface text = [line1; line2] →
      ¬ blank line1 → ¬ blank line2 →
      JSON_parse line1 = Some (JObject properties1) →
      JSON_parse line2 = Some (JObject properties2) →
      settled (readJsonFileLineByLine fs p) = Normal [JObject properties1].
Proof.
  intros Hs1 Ho1 Hs2 Ho2.
  assert (mangled (JObject properties1)
          = Normal (x ++ js "::" ++ y ++ js "::" ++ z)) as Hk1.
  { rewrite mangled_JObject, Hs1, Ho1. simpl. by rewrite <- !app_assoc. }
  assert (mangled (JObject properties2)
          = Normal (x ++ js "::" ++ y ++ js "::" ++ z)) as Hk2.
  { by rewrite mangled_JObject, Hs2, Ho2. }
  split_and!; [done..|].
  intros fs p text line1 line2 Hfs Hlines Hnb1 Hnb2 Hp1 Hp2.
  by eapply read_two_same_key.
Qed.

(** X9.  A field and the string it prints as are one to the key: when the
    field [f] of a record is any value, or is missing, and prints as [t],
    the record has the key of the record that has the string [t] there and
    the same other field; of two such lines only the first is returned. *)
Theorem printed_form_collision f g o t properties1 properties2 :
  f ≠ g →
  lookup_property (field_name f) properties1 = o →
  ToString_operand o = Normal t →
  lookup_property (field_name f) properties2 = Some (JString t) →
  lookup_property (field_name g) properties1
  = lookup_property (field_name g) properties2 →
  mangled (JObject properties1) = mangled (JObject properties2)
  ∧ ∀ fs p text line1 line2 k,
      fs p = Readable text → createInterface text = [line1; line2] →
      ¬ blank line1 → ¬ blank line2 →
      JSON_parse line1 = Some (JObject properties1) →
      JSON_parse line2 = Some (JObject properties2) →
      mangled (JObject properties1) = Normal k →
      settled (readJsonFileLineByLine fs p) = Normal [JObject properties1].
Proof.
  intros Hfg Hf Ht Hf' Hg.
  assert (mangled (JObject properties1) = mangled (JObject properties2)) as Heq.
  { rewrite !mangled_JObject.
    destruct f, g; try done; simpl in Hf, Hf', Hg.
    - by rewrite Hf, Hf', Hg, Ht.
    - by rewrite Hf, Hf', Hg, Ht. }
  split; [done|].
  intros fs p text line1 line2 k Hfs Hlines Hnb1 Hnb2 Hp1 Hp2 Hk.
  eapply read_two_same_key; [done..|]. by rewrite <- Heq.
Qed.

(** *** The end of the file *)

Lemma for_await_final_LF_bounded n : ∀ text buffer st,
  (length text ≤ n)%nat →
  for_await (lines_from true buffer (text ++ [LF])) st
  = for_await (lines_from true buffer text) st.
Proof.
  assert (∀ buffer st,
            for_await (lines_from true buffer [LF]) st
            = for_await (lines_from true buffer []) st) as Hnil.
  { intros buffer st. rewrite (lines_from_ending _ _ LF), !lines_from_nil by done.
    destruct buffer as [|c buffer]; [|done].
    simpl. rewrite for_await_cons. by rewrite (body_blank _ [] blank_nil). }
  induction n as [|n IH]; intros text buffer st Hlen.
  { destruct text; [apply Hnil | simpl in Hlen; lia]. }
  destruct text as [|c rest]; [apply Hnil|].
  simpl in Hlen. cbn [app].
  destruct (c =? CR) eqn:Hcr.
  - apply N.eqb_eq in Hcr as ->. destruct rest as [|c' rest'].
    + cbn [app]. by rewrite lines_from_CR_LF, lines_from_CR_last.
    + simpl in Hlen. cbn [app]. destruct (c' =? LF) eqn:Hlf.
      * apply N.eqb_eq in Hlf as ->. rewrite !lines_from_CR_LF.
        rewrite !for_await_cons. apply IH. lia.
      * rewrite !lines_from_CR, !for_await_cons by done.
        apply (IH (c' :: rest')). simpl. lia.
  - destruct ((c =? LF) || line_separator c) eqn:Hend.
    + rewrite !lines_from_ending, !for_await_cons by done. apply IH. lia.
    + rewrite !lines_from_char by done. apply IH. lia.
Qed.

(** X10.  The last line needs no line ending: a file and the same file with
    an LF more at its end give the same outcome. *)
Theorem final_newline_optional fs p fs' p' text :
  fs p = Readable text → fs' p' = Readable (text ++ [LF]) →
  readJsonFileLineByLine fs' p' = readJsonFileLineByLine fs p.
Proof.
  intros Hfs Hfs'.
  rewrite (read_Readable _ _ _ Hfs), (read_Readable _ _ _ Hfs').
  unfold createInterface.
  by rewrite (for_await_final_LF_bounded (length text)).
Qed.

(** *** The handler *)

(** X11.  When the stream of the graph file under the working directory
    emits an error, [GET] is rejected with that error: it builds no answer,
    and so never answers with an empty or a partial graph. *)
Theorem GET_rejected process createReadStream delivered e :
  createReadStream (cwd process ++ js "/.next/openship/graph")
  = Errored delivered e →
  returned (GET process createReadStream) = Throw e
  ∧ ∀ payload, returned (GET process createReadStream) ≠ Normal payload.
Proof.
  intros Hfs. unfold GET, readJsonFileLineByLine. rewrite Hfs. simpl.
  split; [done | by intros payload].
Qed.

(** X12.  When the graph file under the working directory is readable,
    [GET] answers with the object [data] whose graph is the sequence the
    reader returns for that file: the records of the lines that are first for
    their key, in the order of those lines, no two of them with equal keys;
    what the reader prints is all that is printed. *)
Theorem GET_answers process createReadStream text :
  createReadStream (cwd process ++ js "/.next/openship/graph")
  = Readable text →
  ∃ graph,
    returned (GET process createReadStream) = Normal (data process graph)
    ∧ settled (readJsonFileLineByLine createReadStream
                 (cwd process ++ js "/.next/openship/graph")) = Normal graph
    ∧ first_occurrences (createInterface text) graph
    ∧ (∀ a b obj obj', graph !! a = Some obj → graph !! b = Some obj' →
         mangled obj = mangled obj' → a = b)
    ∧ logged (GET process createReadStream)
      = flat_map report (createInterface text).
Proof.
  intros Hfs. unfold GET. rewrite (read_Readable _ _ _ Hfs). simpl.
  destruct (for_await_invariant (createInterface text)) as [_ Hfo].
  eexists. split_and!; [done..| |].
  - intros a b obj obj'. by apply (first_occurrences_distinct _ _ _ _ _ _ Hfo).
  - by rewrite for_await_console.
Qed.

(** X13.  On a graph file with no line, or with blank lines only, [GET]
    does not fail: it answers with an empty graph and prints nothing. *)
Theorem GET_empty_graph process createReadStream text :
  createReadStream (cwd process ++ js "/.next/openship/graph")
  = Readable text →
  Forall blank (createInterface text) →
  GET process createReadStream
  = {| logged := []; returned := Normal (data process []) |}.
Proof.
  intros Hfs Hblank. unfold GET. rewrite (read_Readable _ _ _ Hfs). simpl.
  by rewrite (for_await_blank _ _ Hblank).
Qed.

End Further.

(** ** The properties on the reference runtime *)

Section Instances.
Import Reference.

(** The first example of the specification: the second line repeats the
    key of the first and is dropped. *)
Example example_duplicate :
  readJsonFileLineByLine (file (unlines [line_AB; line_AB; line_AC])) path
  = {| printed := []; settled := Normal [obj_AB; obj_AC] |}.
Proof. vm_compute. reflexivity. Qed.

(** The second example: the middle line is reported and dropped. *)
Example example_malformed :
  readJsonFileLineByLine (file (unlines [line_AB; line_bad; line_CD])) path
  = {| printed := [diagnostic line_bad SyntaxError];
       settled := Normal [obj_AB; obj_CD] |}.
Proof. vm_compute. reflexivity. Qed.

(** An object that shadows [toString] has no key: the line is reported. *)
Example example_own_toString :
  let line := src "{`s`:{`toString`:1},`o`:`x`}" in
  readJsonFileLineByLine (file (unlines [line])) path
  = {| printed := [diagnostic line TypeError]; settled := Normal [] |}.
Proof. vm_compute. reflexivity. Qed.

Example example_array_key :
  mangled (JObject [(js "s", JArray [JNumber {| mantissa := 1; exponent := 0 |};
                                      JNull; JArray [JBool true]]);
                    (js "o", JObject [])])
  = Normal (js "1,,true::[object Object]").
Proof. reflexivity. Qed.

Example example_empty_file :
  readJsonFileLineByLine (file []) path
  = {| printed := []; settled := Normal [] |}.
Proof. reflexivity. Qed.

Example example_lines :
  createInterface ([65; CR; LF; 66; LF; CR; 67; CR; CR; LF; LS; 68] : jsstring)
  = [[65]; [66]; []; [67]; []; []; [68]].
Proof. reflexivity. Qed.

Lemma dedup_correctness_witness :
  let text := unlines [line_AB; line_AB; line_AC] in
  ∃ out, settled (readJsonFileLineByLine (file text) path) = Normal out
    ∧ (∀ a obj, out !! a = Some obj → ∃ k, mangled obj = Normal k)
    ∧ (∀ a b obj obj', out !! a = Some obj → out !! b = Some obj' →
         mangled obj = mangled obj' → a = b)
    ∧ (∀ j line k obj,
         createInterface text !! j = Some line → yields line k obj →
         ∃ i first a,
           first_for_key (createInterface text) i k first
           ∧ out !! a = Some first
           ∧ ∀ b obj', out !! b = Some obj' → mangled obj' = Normal k → b = a).
Proof.
  apply (dedup_correctness (file (unlines [line_AB; line_AB; line_AC])) path).
  reflexivity.
Defined.

Lemma order_preservation_witness :
  let text := unlines [line_AB; line_AC] in
  let text' := unlines [line_AB; line_AC; line_AB] in
  ∃ out, settled (readJsonFileLineByLine (file text) path) = Normal out
    ∧ first_occurrences (createInterface text) out
    ∧ readJsonFileLineByLine (file text') path
      = readJsonFileLineByLine (file text) path.
Proof.
  intros text text'.
  destruct (order_preservation (file text) path text) as (out & Hout & Hfo & Hdup);
    [reflexivity|].
  exists out. split; [exact Hout|]. split; [exact Hfo|].
  apply (Hdup (file text') path text' [line_AB; line_AC] [] line_AB
           0%nat line_AB (js "A::B") obj_AB obj_AB);
    try reflexivity; split; reflexivity.
Defined.

Lemma malformed_line_resilience_witness :
  let text := unlines [line_AB; line_CD] in
  let text' := unlines [line_AB; line_bad; line_CD] in
  (∃ out, settled (readJsonFileLineByLine (file text) path) = Normal out
          ∧ settled (readJsonFileLineByLine (file text') path) = Normal out)
  ∧ (∀ st, set (body st line_bad) = set st
           ∧ jsonObjects (body st line_bad) = jsonObjects st)
  ∧ (¬ blank line_bad →
     ∃ c1 c2, printed (readJsonFileLineByLine (file text) path) = c1 ++ c2
              ∧ printed (readJsonFileLineByLine (file text') path)
                = c1 ++ diagnostic line_bad SyntaxError :: c2)
  ∧ (blank line_bad →
     printed (readJsonFileLineByLine (file text') path)
     = printed (readJsonFileLineByLine (file text) path)).
Proof.
  apply (malformed_line_resilience
           (file (unlines [line_AB; line_CD])) path (unlines [line_AB; line_CD])
           (file (unlines [line_AB; line_bad; line_CD])) path
           (unlines [line_AB; line_bad; line_CD])
           [line_AB] [line_CD] line_bad); reflexivity.
Defined.

Lemma missing_resource_is_fatal_witness :
  settled (readJsonFileLineByLine no_file path)
  = Throw (SystemError (js "ENOENT"))
  ∧ ∀ out, settled (readJsonFileLineByLine no_file path) ≠ Normal out.
Proof.
  apply (missing_resource_is_fatal no_file path []). reflexivity.
Defined.

Lemma blank_line_transparency_witness :
  let text := unlines [line_AB; line_bad; line_CD] in
  let text' := unlines [line_AB; [32; 9]; line_bad; line_CD] in
  readJsonFileLineByLine (file text') path
  = readJsonFileLineByLine (file text) path
  ∧ ∃ out, settled (readJsonFileLineByLine (file text) path) = Normal out.
Proof.
  apply (blank_line_transparency
           (file (unlines [line_AB; line_bad; line_CD])) path
           (unlines [line_AB; line_bad; line_CD])
           (file (unlines [line_AB; [32; 9]; line_bad; line_CD])) path
           (unlines [line_AB; [32; 9]; line_bad; line_CD])
           [line_AB] [line_bad; line_CD] [32; 9]); try reflexivity.
  repeat constructor.
Defined.

Lemma crlf_equivalent_to_lf_witness :
  let text := unlines [line_AB; line_bad; line_AB; line_CD] in
  readJsonFileLineByLine (file (lf_to_crlf text)) path
  = readJsonFileLineByLine (file text) path.
Proof.
  apply (crlf_equivalent_to_lf
           (file (unlines [line_AB; line_bad; line_AB; line_CD])) path
           (file (lf_to_crlf (unlines [line_AB; line_bad; line_AB; line_CD])))
           path (unlines [line_AB; line_bad; line_AB; line_CD])); reflexivity.
Defined.

Lemma empty_input_empty_output_witness :
  readJsonFileLineByLine (file [32; LF; LF; 9; 160; CR; LF; 32]) path
  = {| printed := []; settled := Normal [] |}.
Proof.
  apply (empty_input_empty_output _ path [32; LF; LF; 9; 160; CR; LF; 32]);
    [reflexivity|].
  vm_compute. repeat constructor.
Defined.

Lemma composite_key_witness :
  mangled obj_AB = Normal (js "A::B")
  ∧ settled (readJsonFileLineByLine (file (unlines [line_AB; line_AB])) path)
    = settled (readJsonFileLineByLine (file (unlines [line_AB])) path)
  ∧ settled (readJsonFileLineByLine (file (unlines [line_AB; line_AC])) path)
    = Normal [obj_AB; obj_AC].
Proof.
  destruct (@composite_key runtime) as (_ & Hstrings & Hdup). split_and!.
  - apply (Hstrings _ (js "A") (js "B")); reflexivity.
  - destruct (Hdup (file (unlines [line_AB])) path (unlines [line_AB])
                (file (unlines [line_AB; line_AB])) path
                (unlines [line_AB; line_AB]) line_AB (js "A::B") obj_AB)
      as (out & Hout & Hseen & _); [reflexivity..|split; reflexivity|].
    rewrite Hout. apply Hseen.
    exists 0%nat, line_AB, obj_AB. split; [reflexivity | split; reflexivity].
  - destruct (Hdup (file (unlines [line_AB])) path (unlines [line_AB])
                (file (unlines [line_AB; line_AC])) path
                (unlines [line_AB; line_AC]) line_AC (js "A::C") obj_AC)
      as (out & Hout & _ & Hfresh); [reflexivity..|split; reflexivity|].
    change (Normal [obj_AB; obj_AC]) with (Normal ([obj_AB] ++ [obj_AC])).
    injection Hout as <-. apply Hfresh.
    intros [|j] earlier obj' Hj [_ Hy]; [|done].
    injection Hj as <-. discriminate Hy.
Defined.

Lemma null_and_primitive_lines_witness :
  readJsonFileLineByLine (file (unlines [line_null])) path
  = {| printed := [diagnostic line_null TypeError]; settled := Normal [] |}
  ∧ readJsonFileLineByLine (file (unlines [line_seven])) path
    = {| printed := [];
         settled := Normal [JNumber {| mantissa := 7; exponent := 0 |}] |}.
Proof.
  split.
  - destruct (@null_and_primitive_lines runtime line_null JNull) as [Hnull _];
      [apply truthy_trim_true; reflexivity | reflexivity |].
    destruct (Hnull eq_refl) as (_ & _ & Hread).
    apply (Hread _ path (unlines [line_null])); reflexivity.
  - destruct (@null_and_primitive_lines runtime line_seven
                (JNumber {| mantissa := 7; exponent := 0 |})) as [_ Hprim];
      [apply truthy_trim_true; reflexivity | reflexivity |].
    destruct (Hprim I) as (_ & _ & Hread).
    apply (Hread _ path (unlines [line_seven])); reflexivity.
Defined.

Lemma key_coercion_witness :
  mangled (JObject [(js "name", JString (js "n"))])
  = Normal (js "undefined::undefined")
  ∧ settled (readJsonFileLineByLine
               (file (unlines [line_empty; line_other; line_empty])) path)
    = Normal [JObject []]
  ∧ settled (readJsonFileLineByLine (file (unlines [line_num; line_str])) path)
    = Normal [JObject [(js "s", JNumber {| mantissa := 1; exponent := 0 |});
                       (js "o", JString (js "x"))]]
  ∧ settled (readJsonFileLineByLine (file (unlines [line_str; line_num])) path)
    = Normal [JObject [(js "s", JString (js "1")); (js "o", JString (js "x"))]].
Proof.
  destruct (@key_coercion runtime) as (_ & _ & Hboth & Hfirst & Hone).
  assert (∀ line : jsstring, truthy (trim line) = true → ¬ blank line) as Hnb.
  { intros line. apply truthy_trim_true. }
  split_and!.
  - apply Hboth. eexists. split; [reflexivity | split; reflexivity].
  - apply (Hfirst _ path (unlines [line_empty; line_other; line_empty])
             line_empty [line_other; line_empty]); [reflexivity..| |reflexivity].
    repeat constructor; try (apply Hnb; reflexivity);
      eexists; (split; [reflexivity|]);
      eexists; (split; [reflexivity | split; reflexivity]).
  - destruct (Hone {| mantissa := 1; exponent := 0 |}
                [(js "s", JNumber {| mantissa := 1; exponent := 0 |});
                 (js "o", JString (js "x"))]
                [(js "s", JString (js "1")); (js "o", JString (js "x"))])
      as [_ Hread]; [reflexivity..|].
    eapply (Hread _ path (unlines [line_num; line_str]) line_num line_str
             _ _ (js "1::x"));
      try reflexivity; try (apply Hnb; reflexivity).
    left. split; reflexivity.
  - destruct (Hone {| mantissa := 1; exponent := 0 |}
                [(js "s", JNumber {| mantissa := 1; exponent := 0 |});
                 (js "o", JString (js "x"))]
                [(js "s", JString (js "1")); (js "o", JString (js "x"))])
      as [_ Hread]; [reflexivity..|].
    eapply (Hread _ path (unlines [line_str; line_num]) line_str line_num
             _ _ (js "1::x"));
      try reflexivity; try (apply Hnb; reflexivity).
    right. split; reflexivity.
Defined.

End Instances.

Section FurtherInstances.
Import Reference.


Lemma line_accounting_witness :
  let text := unlines [line_bad; line_AB; []; line_null; line_AB; line_AC] in
  ∃ out, settled (readJsonFileLineByLine (file text) path) = Normal out
    ∧ (length (printed (readJsonFileLineByLine (file text) path))
       + length (filter (λ l, keyed l = true) (createInterface text))
       = length (filter (λ l, truthy (trim l) = true) (createInterface text)))%nat
    ∧ (length out
       ≤ length (filter (λ l, keyed l = true) (createInterface text)))%nat.
Proof.
  apply (line_accounting
           (file (unlines [line_bad; line_AB; []; line_null; line_AB; line_AC]))
           path).
  reflexivity.
Defined.

Lemma longer_file_extends_witness :
  let text := unlines [line_AB; line_bad] in
  let text' := unlines [line_AB; line_bad; line_AC; line_AB] in
  ∃ out out', settled (readJsonFileLineByLine (file text) path) = Normal out
    ∧ settled (readJsonFileLineByLine (file text') path) = Normal out'
    ∧ out `prefix_of` out'
    ∧ printed (readJsonFileLineByLine (file text) path)
      `prefix_of` printed (readJsonFileLineByLine (file text') path).
Proof.
  apply (longer_file_extends
           (file (unlines [line_AB; line_bad])) path (unlines [line_AB; line_bad])
           (file (unlines [line_AB; line_bad; line_AC; line_AB])) path
           (unlines [line_AB; line_bad; line_AC; line_AB])
           [line_AC; line_AB]); reflexivity.
Defined.

Lemma repeated_lines_add_nothing_witness :
  let text := unlines [line_AB; line_AC; line_bad] in
  let text' := unlines [line_AB; line_AC; line_bad; line_AC; line_AB; line_AC] in
  ∃ out, settled (readJsonFileLineByLine (file text) path) = Normal out
    ∧ settled (readJsonFileLineByLine (file text') path) = Normal out.
Proof.
  apply (repeated_lines_add_nothing
           (file (unlines [line_AB; line_AC; line_bad])) path
           (unlines [line_AB; line_AC; line_bad])
           (file (unlines [line_AB; line_AC; line_bad;
                           line_AC; line_AB; line_AC])) path
           (unlines [line_AB; line_AC; line_bad; line_AC; line_AB; line_AC])
           [line_AC; line_AB; line_AC]); try reflexivity.
  intros line Hin.
  change (createInterface (unlines [line_AB; line_AC; line_bad]))
    with [line_AB; line_AC; line_bad].
  repeat (apply elem_of_cons in Hin as [->|Hin]);
    [repeat constructor..|by apply elem_of_nil in Hin].
Defined.

Lemma keys_independent_of_order_witness :
  let text := unlines [line_AB; line_num; line_str] in
  let text' := unlines [line_str; line_num; line_AB] in
  ∃ out out', settled (readJsonFileLineByLine (file text) path) = Normal out
    ∧ settled (readJsonFileLineByLine (file text') path) = Normal out'
    ∧ length out = length out'
    ∧ ∀ k, (∃ obj, obj ∈ out ∧ mangled obj = Normal k)
           ↔ (∃ obj', obj' ∈ out' ∧ mangled obj' = Normal k).
Proof.
  apply (keys_independent_of_order
           (file (unlines [line_AB; line_num; line_str])) path
           (unlines [line_AB; line_num; line_str])
           (file (unlines [line_str; line_num; line_AB])) path
           (unlines [line_str; line_num; line_AB])); [reflexivity..|].
  change ([line_AB; line_num; line_str] ≡ₚ [line_str; line_num; line_AB]).
  apply Permutation_rev.
Defined.

Lemma separator_collision_witness :
  mangled (JObject [(js "s", JString (js "x::y")); (js "o", JString (js "z"))])
  = Normal (js "x::y::z")
  ∧ mangled (JObject [(js "s", JString (js "x")); (js "o", JString (js "y::z"))])
    = Normal (js "x::y::z")
  ∧ settled (readJsonFileLineByLine (file (unlines [line_xy_z; line_x_yz])) path)
    = Normal [JObject [(js "s", JString (js "x::y")); (js "o", JString (js "z"))]].
Proof.
  destruct (@separator_collision runtime (js "x") (js "y") (js "z")
              [(js "s", JString (js "x::y")); (js "o", JString (js "z"))]
              [(js "s", JString (js "x")); (js "o", JString (js "y::z"))])
    as (Hk1 & Hk2 & Hread); [reflexivity..|].
  split; [exact Hk1|]. split; [exact Hk2|].
  apply (Hread _ path (unlines [line_xy_z; line_x_yz]) line_xy_z line_x_yz);
    try reflexivity; apply truthy_trim_true; reflexivity.
Defined.

Lemma printed_form_collision_witness :
  mangled (JObject [(js "s", JBool true); (js "o", JString (js "x"))])
  = mangled (JObject [(js "s", JString (js "true")); (js "o", JString (js "x"))])
  ∧ settled (readJsonFileLineByLine
               (file (unlines [line_true; line_true_string])) path)
    = Normal [JObject [(js "s", JBool true); (js "o", JString (js "x"))]].
Proof.
  destruct (@printed_form_collision runtime field_s field_o
              (Some (JBool true)) (js "true")
              [(js "s", JBool true); (js "o", JString (js "x"))]
              [(js "s", JString (js "true")); (js "o", JString (js "x"))])
    as (Hk & Hread); [discriminate|reflexivity..|].
  split; [exact Hk|].
  apply (Hread _ path (unlines [line_true; line_true_string])
           line_true line_true_string (js "true::x"));
    try reflexivity; apply truthy_trim_true; reflexivity.
Defined.

Lemma final_newline_optional_witness :
  let text := unlines [line_AB; line_bad] ++ line_AC in
  readJsonFileLineByLine (file (text ++ [LF])) path
  = readJsonFileLineByLine (file text) path.
Proof.
  apply (final_newline_optional
           (file (unlines [line_AB; line_bad] ++ line_AC)) path
           (file ((unlines [line_AB; line_bad] ++ line_AC) ++ [LF])) path
           (unlines [line_AB; line_bad] ++ line_AC)); reflexivity.
Defined.

Lemma GET_rejected_witness :
  returned (GET node no_file) = Throw (SystemError (js "ENOENT"))
  ∧ ∀ payload, returned (GET node no_file) ≠ Normal payload.
Proof.
  apply (GET_rejected node no_file []). reflexivity.
Defined.

Lemma GET_answers_witness :
  let text := unlines [line_AB; line_bad; line_AB; line_AC] in
  ∃ graph,
    returned (GET node (graph_file text)) = Normal (data node graph)
    ∧ settled (readJsonFileLineByLine (graph_file text)
                 (cwd node ++ js "/.next/openship/graph")) = Normal graph
    ∧ first_occurrences (createInterface text) graph
    ∧ (∀ a b obj obj', graph !! a = Some obj → graph !! b = Some obj' →
         mangled obj = mangled obj' → a = b)
    ∧ logged (GET node (graph_file text))
      = flat_map report (createInterface text).
Proof.
  apply (GET_answers node
           (graph_file (unlines [line_AB; line_bad; line_AB; line_AC]))).
  reflexivity.
Defined.

Lemma GET_empty_graph_witness :
  GET node (graph_file [32; LF; CR; LF; 9])
  = {| logged := []; returned := Normal (data node []) |}.
Proof.
  apply (GET_empty_graph node (graph_file [32; LF; CR; LF; 9]) [32; LF; CR; LF; 9]);
    [reflexivity|].
  vm_compute. repeat constructor.
Defined.

(** The answer of the handler on the first example of the specification. *)
Example example_GET :
  GET node (graph_file (unlines [line_AB; line_AB; line_AC]))
  = {| logged := [];
       returned := Normal (data node [obj_AB; obj_AC]) |}.
Proof. vm_compute. reflexivity. Qed.

End FurtherInstances.
